(** * kue-unique: unique jobs on top of the kue job queue

    A shallow embedding of [index.js] and the properties of its registry of
    unique jobs.  The registry is one JSON document, kept under one Redis
    key, that maps a uniqueness key to the identifier of the job that
    carries it.

    The module patches three methods of kue's [Job]: [unique], [save] and
    [remove].  Everything they call that is not defined in [index.js] is a
    dependency, and enters the development in one of two ways:

    - the JavaScript runtime ([JSON.parse], [JSON.stringify]) and kue itself
      (the original [save] and [remove], [Job.get], [client.getKey]) are
      parameters of the section [KueUnique];
    - lodash, async and the Redis client are small enough to be written out:
      lodash on objects seen as finite maps of their own properties, async's
      [waterfall] as sequencing that stops at the first error, [parallel] as
      an explicit order of completions, and the Redis client as a key-value
      map together with the list of the faults it is going to suffer.

    An object is known by its own properties.  What it inherits from
    [Object.prototype] shows in two places.  Assigning to the name
    [__proto__] goes through the accessor of the prototype and creates no
    property: [assign_property] has it.  Looking a name up with [in], as
    [_.pick] does, also answers for the inherited members ([constructor],
    [toString], ...): this lookup is not modelled, and the statements that
    depend on a name not being found say so, with [inherited]. *)

From stdpp Require Import gmap strings list fin_maps pretty.

Set Warnings "-register-all".
#[local] Open Scope Z_scope.

(** ** JavaScript values

    Numbers are the integers that a double holds exactly (job identifiers
    are counters), and an object is the finite map of its own enumerable
    properties.  Arrays and functions do not occur in the registry and are
    left out. *)

Inductive value :=
| VUndefined
| VNull
| VBool (b : bool)
| VNum (z : Z)
| VStr (s : string)
| VObj (m : gmap string value).

(** Conversion to a boolean, as done by [if], [&&] and [||]. *)
Definition truthy (v : value) : bool :=
  match v with
  | VUndefined | VNull => false
  | VBool b => b
  | VNum z => negb (z =? 0)
  | VStr s => negb (String.eqb s "")
  | VObj _ => true
  end.

(** [a === b].  Two objects are strictly equal when they are the same
    object; the only place where [index.js] compares ([removeUniqueJobData])
    has on its left a value freshly parsed from the store, which is the same
    object as nothing else. *)
Definition strict_equals (a b : value) : bool :=
  match a, b with
  | VUndefined, VUndefined => true
  | VNull, VNull => true
  | VBool x, VBool y => Bool.eqb x y
  | VNum x, VNum y => x =? y
  | VStr x, VStr y => String.eqb x y
  | _, _ => false
  end.

(** The own properties of a value: those of an object, none for the rest
    (the length and the characters of a string, which no key of the registry
    is meant to name, are left out). *)
Definition own_props (v : value) : gmap string value :=
  match v with
  | VObj m => m
  | _ => ∅
  end.

(** [v.unique].  Reading a property of [undefined] or [null] raises a
    [TypeError], which is [None] here; a missing property reads as
    [undefined]. *)
Definition get_unique (v : value) : option value :=
  match v with
  | VUndefined | VNull => None
  | _ => Some (default VUndefined (own_props v !! "unique"))
  end.

(** The property name a value is turned into when it is used as a key, as
    in [o[v] = ...]; a number is written in decimal. *)
Definition to_key (v : value) : string :=
  match v with
  | VUndefined => "undefined"
  | VNull => "null"
  | VBool true => "true"
  | VBool false => "false"
  | VNum z => pretty z
  | VStr s => s
  | VObj _ => "[object Object]"
  end.

(** The names of the members of [Object.prototype], which every object
    inherits, and of [Number.prototype], which a number inherits as well. *)
Definition Object_prototype : list string :=
  ["constructor"; "__defineGetter__"; "__defineSetter__"; "hasOwnProperty";
   "__lookupGetter__"; "__lookupSetter__"; "isPrototypeOf";
   "propertyIsEnumerable"; "toString"; "valueOf"; "__proto__"; "toLocaleString"].

Definition Number_prototype : list string :=
  ["constructor"; "toExponential"; "toFixed"; "toPrecision"; "toString";
   "valueOf"; "toLocaleString"].

(** [name in o] holds for an object [o] that has no property [name] of its
    own. *)
Definition inherited (name : string) : bool :=
  bool_decide (name ∈ Object_prototype).

(** The same for a number or a boolean in the place of [o]. *)
Definition inherited_by_number (name : string) : bool :=
  bool_decide (name ∈ Number_prototype ++ Object_prototype).

(** [o[name] = v] on an object without setters of its own: the value
    becomes a property of [o], unless the name is [__proto__], which is the
    accessor of [Object.prototype] and leaves the properties of [o] as they
    are. *)
Definition assign_property (o : gmap string value) (name : string) (v : value)
    : gmap string value :=
  if String.eqb name "__proto__" then o else <[name := v]> o.

(** Numbers and booleans: the values, other than objects, that have no
    property of their own. *)
Definition is_number_or_boolean (v : value) : Prop :=
  match v with
  | VNum _ | VBool _ => True
  | _ => False
  end.

(** Job identifiers are numbers or strings. *)
Definition is_job_id (v : value) : Prop :=
  match v with
  | VNum _ | VStr _ => True
  | _ => False
  end.

(** ** lodash *)

Definition lodash_isNull (v : value) : bool :=
  match v with
  | VNull => true
  | _ => false
  end.

(** [_.pick(object, prop)]: the object made of the property [prop] of
    [object], when there is one of its own. *)
Definition lodash_pick (object prop : value) : gmap string value :=
  match own_props object !! to_key prop with
  | Some v => {[ to_key prop := v ]}
  | None => ∅
  end.

(** [_.omit(object, predicate)]: the object made of the properties of
    [object] whose value the predicate rejects. *)
Definition lodash_omit (object : value) (predicate : value → bool) : gmap string value :=
  filter (λ kv : string * value, predicate kv.2 = false) (own_props object).

(** [_.merge(object, source)]: assigns the properties of [source] to
    [object], in place, and returns [object].  A property that is
    [undefined] in [source] is skipped, a property that is an object is
    merged into the destination's (or into a fresh object when the
    destination has none), anything else is assigned.  An [object] that is
    not an object is returned as it is. *)
Fixpoint lodash_merge (object source : value) {struct source} : value :=
  match object, source with
  | VObj mo, VObj ms =>
      VObj (map_fold (λ key srcValue acc,
              match srcValue with
              | VUndefined => acc
              | VObj _ =>
                  let result :=
                    match acc !! key with
                    | Some (VObj d) => VObj d
                    | _ => VObj ∅
                    end in
                  assign_property acc key (lodash_merge result srcValue)
              | _ => assign_property acc key srcValue
              end) mo ms)
  | _, _ => object
  end.

Definition lodash_keys (m : gmap string value) : list string := (map_to_list m).*1.
Definition lodash_values (m : gmap string value) : list value := (map_to_list m).*2.
Definition lodash_size {A} (l : list A) : nat := length l.
Definition lodash_first (l : list value) : value := default VUndefined (head l).

(** ** Jobs, errors and the record of what was called *)

Record job := Job {
  id : value;            (* assigned by kue when the job is saved *)
  data : value;          (* the caller's payload *)
  alreadyExist : bool    (* set by [save] on a job found in the registry *)
}.

Inductive error := Error (message : string).

(** Every call that leaves [index.js], with the error it came back with,
    in the order of completion; [Finalize] is the caller's callback of
    [remove] being invoked. *)
Inductive call :=
| ClientGet (key : string) (err : option error)
| ClientSet (key blob : string) (err : option error)
| PreviousSave (this : job) (err : option error)
| JobGet (i : value) (err : option error)
| PreviousRemove (this : job) (err : option error)
| Finalize (err : option error).

Definition call_error (c : call) : option error :=
  match c with
  | ClientGet _ e | ClientSet _ _ e | PreviousSave _ e
  | JobGet _ e | PreviousRemove _ e => e
  | Finalize _ => None
  end.

Definition is_write (c : call) : bool :=
  match c with
  | ClientSet _ _ _ => true
  | _ => false
  end.

Definition is_read (c : call) : bool :=
  match c with
  | ClientGet _ _ => true
  | _ => false
  end.

(** An access to the store is an access to [key]. *)
Definition on_key (key : string) (c : call) : Prop :=
  match c with
  | ClientGet k _ | ClientSet k _ _ => k = key
  | _ => True
  end.

(** The calls into kue. *)
Definition is_kue_call (c : call) : bool :=
  match c with
  | PreviousSave _ _ | JobGet _ _ | PreviousRemove _ _ => true
  | _ => false
  end.

Definition is_finalize (c : call) : bool :=
  match c with
  | Finalize _ => true
  | _ => false
  end.

(** The error of the first call that failed. *)
Fixpoint first_error (cs : list call) : option error :=
  match cs with
  | [] => None
  | c :: cs' =>
      match call_error c with
      | Some e => Some e
      | None => first_error cs'
      end
  end.

(** ** The Redis client

    The store is a map from keys to texts.  [faults] lists what the coming
    operations are going to suffer, one entry for each: [Some e] makes the
    operation fail with [e] and leave the store as it is, [None] lets it
    through; when the list is used up no operation fails. *)
Record redis := Redis {
  content : gmap string string;
  faults : list (option error)
}.

Definition next_fault (r : redis) : option error * redis :=
  match faults r with
  | [] => (None, r)
  | f :: fs => (f, {| content := content r; faults := fs |})
  end.

(** [client.get(key, callback)]: the callback's error and reply; a key
    that is not there replies [null], which is [None], as is the missing
    reply of a failed access. *)
Definition redis_get (key : string) (r : redis) : option error * option string * redis :=
  let '(fault, r') := next_fault r in
  match fault with
  | Some e => (Some e, None, r')
  | None => (None, content r' !! key, r')
  end.

(** [client.set(key, blob, callback)]. *)
Definition redis_set (key blob : string) (r : redis) : option error * redis :=
  let '(fault, r') := next_fault r in
  match fault with
  | Some e => (Some e, r')
  | None => (None, {| content := <[key := blob]> (content r'); faults := faults r' |})
  end.

(** ** What a call into the patched [Job] ends with *)

(** The second argument handed to a callback. *)
Inductive argument :=
| ANone
| AJob (j : job)
| AData (v : value).

Inductive type_error :=
| DataOfUndefined      (* [job.data] where [job] is undefined *)
| UniqueOfUndefined.   (* [job.data.unique] where [job.data] is undefined or null *)

(** Either the caller's callback is invoked, or a [TypeError] is raised
    inside a callback and nobody is called back. *)
Inductive outcome :=
| Done (err : option error) (res : argument)
| Uncaught (t : type_error).

(** The state the module runs against: kue's own state, the Redis client,
    and the calls made so far.  [client] is the store as the module itself
    reads and writes it; what kue keeps in the same Redis, under keys of its
    own, is part of [kue]. *)
Record world (engine : Type) := World {
  kue : engine;
  client : redis;
  trace : list call
}.
Arguments World {engine} _ _ _.
Arguments kue {engine} _.
Arguments client {engine} _.
Arguments trace {engine} _.

(** The order in which the two tasks of [remove] complete: kue's removal
    calls back before the registry is read, between the read and the write,
    or after the write. *)
Inductive schedule :=
| RemoveJobFirst
| RemoveJobBetween
| RemoveJobLast.

(** The state of [async.parallel]: how many tasks have called back, and
    whether the final callback has been invoked. *)
Record parallel := Parallel {
  completed : nat;
  finished : option (option error)
}.

Section KueUnique.

(** [JSON.parse]; [None] when it raises a [SyntaxError]. *)
Variable JSON_parse : string → option value.
Variable JSON_stringify : value → string.

(** [Job.client.getKey], which prefixes a key with the queue's name. *)
Variable getKey : string → string.

(** kue: its state, and the three entry points the module calls.
    [previousSave] and [previousRemove] are [Job.prototype.save] and
    [Job.prototype.remove] as they were before being patched; a save
    returns the receiver as kue leaves it (with its identifier). *)
Variable engine : Type.
Variable previousSave : job → engine → option error * job * engine.
Variable Job_get : value → engine → option error * option job * engine.
Variable previousRemove : job → engine → option error * engine.

#[local] Abbreviation world := (world engine).

Definition record (c : call) (w : world) : world :=
  {| kue := kue w; client := client w; trace := trace w ++ [c] |}.

Definition client_get (key : string) (w : world) : option error * option string * world :=
  let '(err, reply, r) := redis_get key (client w) in
  (err, reply, record (ClientGet key err) {| kue := kue w; client := r; trace := trace w |}).

Definition client_set (key blob : string) (w : world) : option error * world :=
  let '(err, r) := redis_set key blob (client w) in
  (err, record (ClientSet key blob err) {| kue := kue w; client := r; trace := trace w |}).

Definition call_previousSave (this : job) (w : world) : option error * job * world :=
  let '(err, this', k) := previousSave this (kue w) in
  (err, this', record (PreviousSave this err) {| kue := k; client := client w; trace := trace w |}).

Definition call_Job_get (i : value) (w : world) : option error * option job * world :=
  let '(err, j, k) := Job_get i (kue w) in
  (err, j, record (JobGet i err) {| kue := k; client := client w; trace := trace w |}).

Definition call_previousRemove (this : job) (w : world) : option error * world :=
  let '(err, k) := previousRemove this (kue w) in
  (err, record (PreviousRemove this err) {| kue := k; client := client w; trace := trace w |}).

(** ** The registry *)

Definition Job_getUniqueJobsKey : string := getKey "unique:jobs".

(** The body of the callback of [client.get] in [getUniqueJobsData]:
    parse, fall back to [{}] when the parse raises, and correct [null]. *)
Definition parse_reply (reply : option string) : value :=
  let data :=
    match reply with
    | None => VNull
    | Some text => default (VObj ∅) (JSON_parse text)
    end in
  if lodash_isNull data then VObj ∅ else data.

Definition Job_getUniqueJobsData (w : world) : option error * value * world :=
  let key := Job_getUniqueJobsKey in
  let '(error, data, w) := client_get key w in
  (error, parse_reply data, w).

Definition Job_getUniqueJobData (unique : value) (w : world) : option error * value * world :=
  (* loadUniqueJobsData *)
  let '(error, uniqueJobsData, w) := Job_getUniqueJobsData w in
  match error with
  | Some e => (Some e, uniqueJobsData, w)
  | None =>
      (* findUniqueData *)
      let uniqueJobData := lodash_pick uniqueJobsData unique in
      (None, VObj uniqueJobData, w)
  end.

Definition Job_removeUniqueJobData (i : value) (w : world) : option error * value * world :=
  let key := Job_getUniqueJobsKey in
  (* loadUniqueJobsData *)
  let '(error, uniqueJobsData, w) := Job_getUniqueJobsData w in
  match error with
  | Some e => (Some e, uniqueJobsData, w)
  | None =>
      (* save *)
      let uniqueJobsData := VObj (lodash_omit uniqueJobsData (λ v, strict_equals v i)) in
      let '(error, w) := client_set key (JSON_stringify uniqueJobsData) w in
      (error, uniqueJobsData, w)
  end.

Definition Job_saveUniqueJobsData (uniqueJobData : value) (w : world) : option error * value * world :=
  let key := Job_getUniqueJobsKey in
  (* loadUniqueJobsData *)
  let '(error, uniqueJobsData, w) := Job_getUniqueJobsData w in
  match error with
  | Some e => (Some e, uniqueJobsData, w)
  | None =>
      (* save *)
      let uniqueJobsData := lodash_merge uniqueJobsData uniqueJobData in
      let '(error, w) := client_set key (JSON_stringify uniqueJobsData) w in
      (error, uniqueJobsData, w)
  end.

(** ** The patched methods of a job *)

(** [Job.prototype.unique]: the merge changes [this.data] in place when
    there is one; otherwise it changes the fresh [{}] and the job is
    left as it was. *)
Definition Job_unique (unique : value) (this : job) : job :=
  if truthy (data this)
  then {| id := id this;
          data := lodash_merge (data this) (VObj {[ "unique" := unique ]});
          alreadyExist := alreadyExist this |}
  else this.

(** [this.data && this.data.unique]. *)
Definition isUniqueJob (this : job) : value :=
  if truthy (data this)
  then default VUndefined (get_unique (data this))
  else data this.

Definition flag (j : job) : job :=
  {| id := id j; data := data j; alreadyExist := true |}.

Definition argument_of (j : option job) : argument :=
  match j with
  | Some j => AJob j
  | None => ANone
  end.

(** [Job.prototype.save]: what happens to the callback, the receiver
    after the call, and the state. *)
Definition Job_save (this : job) (w : world) : outcome * job * world :=
  if truthy (isUniqueJob this) then
    (* tryGetExistingJobData *)
    let '(error, uniqueJobData, w) :=
      Job_getUniqueJobData (default VUndefined (get_unique (data this))) w in
    match error with
    | Some e => (Done (Some e) (AData uniqueJobData), this, w)
    | None =>
        (* tryGetExistingOrSaveJob *)
        let uniqueJobData := own_props uniqueJobData in
        let exists_ := bool_decide (0 < lodash_size (lodash_keys uniqueJobData))%nat in
        let '(error, job, this, w) :=
          if exists_ then
            let i := lodash_first (lodash_values uniqueJobData) in
            let '(error, job, w) := call_Job_get i w in
            (error, flag <$> job, this, w)
          else
            let '(error, this, w) := call_previousSave this w in
            (error, Some this, this, w) in
        match error with
        | Some e => (Done (Some e) (argument_of job), this, w)
        | None =>
            (* _saveUniqueJobsData *)
            match job with
            | None => (Uncaught DataOfUndefined, this, w)
            | Some job =>
                match get_unique (data job) with
                | None => (Uncaught UniqueOfUndefined, this, w)
                | Some unique =>
                    let uniqueJobData :=
                      VObj (assign_property ∅ (to_key unique) (id job)) in
                    let '(error, _, w) := Job_saveUniqueJobsData uniqueJobData w in
                    (Done error (AJob job), this, w)
                end
            end
        end
    end
  else
    let '(error, this, w) := call_previousSave this w in
    (Done error ANone, this, w).

(** [async.parallel]: a task calls back.  The final callback is invoked
    once: with the first error, as soon as it arrives, or without error
    when both tasks have called back. *)
Definition task_done (err : option error) (p : parallel) (w : world) : parallel * world :=
  match finished p with
  | Some _ => (p, w)
  | None =>
      match err with
      | Some e =>
          ({| completed := completed p; finished := Some (Some e) |},
           record (Finalize (Some e)) w)
      | None =>
          let n := S (completed p) in
          if (2 <=? n)%nat
          then ({| completed := n; finished := Some None |}, record (Finalize None) w)
          else ({| completed := n; finished := None |}, w)
      end
  end.

(** The task [removeJob]: kue's removal calls back. *)
Definition removeJob (this : job) (st : parallel * world) : parallel * world :=
  let '(error, w) := call_previousRemove this (st.2) in
  task_done error st.1 w.

(** The task [removeUniqueData], cut at its two store accesses: the read
    calls back, and either ends the task with its error or leaves a
    document to write; then the write calls back. *)
Definition removeUniqueData_read (st : parallel * world) : option value * (parallel * world) :=
  let '(error, uniqueJobsData, w) := Job_getUniqueJobsData st.2 in
  match error with
  | Some e => (None, task_done (Some e) st.1 w)
  | None => (Some uniqueJobsData, (st.1, w))
  end.

Definition removeUniqueData_write (i : value) (loaded : option value)
    (st : parallel * world) : parallel * world :=
  match loaded with
  | None => st
  | Some uniqueJobsData =>
      let uniqueJobsData := VObj (lodash_omit uniqueJobsData (λ v, strict_equals v i)) in
      let '(error, w) := client_set Job_getUniqueJobsKey (JSON_stringify uniqueJobsData) st.2 in
      task_done error st.1 w
  end.

(** [Job.prototype.remove], for a given order of completion: the error
    handed to the caller's callback, if it has been invoked, and the state
    when everything has called back. *)
Definition Job_remove (s : schedule) (this : job) (w : world) : option (option error) * world :=
  let st := ({| completed := 0; finished := None |}, w) in
  let st :=
    match s with
    | RemoveJobFirst =>
        let st := removeJob this st in
        let '(loaded, st) := removeUniqueData_read st in
        removeUniqueData_write (id this) loaded st
    | RemoveJobBetween =>
        let '(loaded, st) := removeUniqueData_read st in
        let st := removeJob this st in
        removeUniqueData_write (id this) loaded st
    | RemoveJobLast =>
        let '(loaded, st) := removeUniqueData_read st in
        let st := removeUniqueData_write (id this) loaded st in
        removeJob this st
    end in
  (finished st.1, st.2).

(** The second task of the waterfall of [saveUniqueJobsData], the function
    [save]: merge into the document that was loaded, and write. *)
Definition saveUniqueJobsData_save (uniqueJobData uniqueJobsData : value) (w : world)
    : option error * value * world :=
  let uniqueJobsData := lodash_merge uniqueJobsData uniqueJobData in
  let '(error, w) := client_set Job_getUniqueJobsKey (JSON_stringify uniqueJobsData) w in
  (error, uniqueJobsData, w).

(** What is left of a call of [saveUniqueJobsData] once its first task,
    [loadUniqueJobsData], has called back with [loaded]: nothing when the
    load failed, the task [save] otherwise. *)
Definition saveUniqueJobsData_resume (uniqueJobData : value)
    (loaded : option error * value) (w : world) : option error * value * world :=
  match loaded.1 with
  | Some e => (Some e, loaded.2, w)
  | None => saveUniqueJobsData_save uniqueJobData loaded.2 w
  end.

(** Two calls of [saveUniqueJobsData] under way at once, in the order that
    no lock rules out: both load the document, then both write. *)
Definition overlapping_saveUniqueJobsData (first second : value) (w : world)
    : (option error * value) * (option error * value) * world :=
  let '(error1, loaded1, w) := Job_getUniqueJobsData w in
  let '(error2, loaded2, w) := Job_getUniqueJobsData w in
  let '(result1, w) := saveUniqueJobsData_resume first (error1, loaded1) w in
  let '(result2, w) := saveUniqueJobsData_resume second (error2, loaded2) w in
  (result1, result2, w).

(** The store holds the document [doc] under the registry's key: the text
    there is one that [JSON.parse] turns into [doc], or there is no text and
    [doc] is empty. *)
Definition registry_holds (c : gmap string string) (doc : gmap string value) : Prop :=
  match c !! Job_getUniqueJobsKey with
  | Some text => JSON_parse text = Some (VObj doc)
  | None => doc = ∅
  end.

(** What [save] relies on: kue's [Job.get] hands back the job it was
    asked for. *)
Definition fetches_by_id : Prop :=
  ∀ (i : value) (k : engine) (error : option error) (j : job) (k' : engine),
    Job_get i k = (error, Some j, k') → id j = i.

End KueUnique.

(** ** A queue small enough to run

    An instance of the parameters, on which the operations above evaluate:
    a JSON reader and writer for the handful of texts the examples store, and
    an engine that keeps the saved jobs in a list and numbers them from 1. *)
Module Demo.

Definition quote : string := String (Ascii.ascii_of_nat 34) "".

(** The text [{"order-42":1}]. *)
Definition order_42_is_1 : string := "{" +:+ quote +:+ "order-42" +:+ quote +:+ ":1}".

Definition JSON_parse (text : string) : option value :=
  if String.eqb text "{}" then Some (VObj ∅)
  else if String.eqb text "null" then Some VNull
  else if String.eqb text "42" then Some (VNum 42)
  else if String.eqb text order_42_is_1 then Some (VObj {[ "order-42" := VNum 1 ]})
  else None.

Definition stringify_property (kv : string * value) : string :=
  quote +:+ kv.1 +:+ quote +:+ ":" +:+
  match kv.2 with
  | VNum z => pretty z
  | VStr s => quote +:+ s +:+ quote
  | VBool true => "true"
  | VBool false => "false"
  | _ => "null"
  end.

Definition JSON_stringify (v : value) : string :=
  match v with
  | VObj m => "{" +:+ String.concat "," (stringify_property <$> map_to_list m) +:+ "}"
  | VNum z => pretty z
  | VStr s => quote +:+ s +:+ quote
  | VBool true => "true"
  | VBool false => "false"
  | _ => "null"
  end.

Definition getKey (key : string) : string := "q:" +:+ key.

Definition engine : Type := list job.

Definition has_id (i : value) (j : job) : bool := strict_equals (id j) i.

Definition previousSave (this : job) (jobs : engine) : option error * job * engine :=
  let this := {| id := VNum (Z.of_nat (S (length jobs)));
                 data := data this;
                 alreadyExist := alreadyExist this |} in
  (None, this, jobs ++ [this]).

Definition Job_get (i : value) (jobs : engine) : option error * option job * engine :=
  match List.find (has_id i) jobs with
  | Some j => (None, Some j, jobs)
  | None => (Some (Error "job does not exist"), None, jobs)
  end.

(** A fetch that reports a missing job by handing back nothing at all. *)
Definition Job_get_silent (i : value) (jobs : engine) : option error * option job * engine :=
  (None, List.find (has_id i) jobs, jobs).

Definition previousRemove (this : job) (jobs : engine) : option error * engine :=
  match List.find (has_id (id this)) jobs with
  | Some _ => (None, List.filter (λ j, negb (has_id (id this) j)) jobs)
  | None => (Some (Error "job does not exist"), jobs)
  end.

Definition key : string := Job_getUniqueJobsKey getKey.

(** A kue that refuses to save. *)
Definition previousSave_refused (this : job) (jobs : engine)
    : option error * job * engine :=
  (Some (Error "job could not be saved"), this, jobs).

Definition Job_save_refused :=
  Job_save JSON_parse JSON_stringify getKey engine previousSave_refused Job_get.

Definition Job_save :=
  Job_save JSON_parse JSON_stringify getKey engine previousSave Job_get.
Definition Job_remove :=
  Job_remove JSON_parse JSON_stringify getKey engine previousRemove.

Definition empty_world : world engine :=
  {| kue := []; client := {| content := ∅; faults := [] |}; trace := [] |}.

Definition new_job (payload : value) : job :=
  {| id := VUndefined; data := payload; alreadyExist := false |}.

Definition jobA : job := Job_unique (VStr "order-42") (new_job (VObj ∅)).
Definition jobB : job := Job_unique (VStr "order-42") (new_job (VObj ∅)).

(** [jobA] once kue has saved it, and the world after it has been
    submitted to the empty queue: job 1 exists and the registry is
    [{"order-42":1}]. *)
Definition job1 : job :=
  {| id := VNum 1; data := VObj {[ "unique" := VStr "order-42" ]};
     alreadyExist := false |}.

Definition after_jobA : world engine :=
  {| kue := [job1];
     client := {| content := {[ key := order_42_is_1 ]}; faults := [] |};
     trace := [ClientGet key None; PreviousSave jobA None;
               ClientGet key None; ClientSet key order_42_is_1 None] |}.

(** The registry still points at job 1, which kue no longer has. *)
Definition dangling : world engine :=
  {| kue := [];
     client := {| content := {[ key := order_42_is_1 ]}; faults := [] |};
     trace := [] |}.

(** The registry's key holds the text [42]. *)
Definition overwritten : world engine :=
  {| kue := [];
     client := {| content := {[ key := "42" ]}; faults := [] |};
     trace := [] |}.

(** The same world, with the faults the store is going to suffer. *)
Definition with_faults (fs : list (option error)) (w : world engine) : world engine :=
  {| kue := kue w;
     client := {| content := content (client w); faults := fs |};
     trace := trace w |}.

(** The registry points at job 1, and kue has it as [j]. *)
Definition pointing_at (j : job) : world engine :=
  {| kue := [j];
     client := {| content := {[ key := order_42_is_1 ]}; faults := [] |};
     trace := [] |}.

Definition job_without_data : job :=
  {| id := VNum 1; data := VUndefined; alreadyExist := false |}.

Definition job_without_key : job :=
  {| id := VNum 1; data := VObj ∅; alreadyExist := false |}.

Definition store_down : error := Error "connection lost".

(** Two jobs tagged with the key [__proto__], and what kue makes of them
    in turn. *)
Definition proto_job : job := Job_unique (VStr "__proto__") (new_job (VObj ∅)).

Definition proto_job1 : job :=
  {| id := VNum 1; data := VObj {[ "unique" := VStr "__proto__" ]};
     alreadyExist := false |}.

Definition proto_job2 : job :=
  {| id := VNum 2; data := VObj {[ "unique" := VStr "__proto__" ]};
     alreadyExist := false |}.

End Demo.

(** * Properties *)

(** Membership in a list that is written out. *)
Ltac in_list :=
  solve [ repeat first [ apply list_elem_of_here | apply list_elem_of_further ] ].

Ltac not_in_list H :=
  exfalso;
  repeat (apply elem_of_cons in H as [H|H]; [discriminate|]);
  apply elem_of_nil in H; exact H.

(** ** Values and lodash *)

Lemma strict_equals_job_id (v i : value) :
  is_job_id i → strict_equals v i = true ↔ v = i.
Proof.
  destruct i as [| |b|z|s|m]; simpl; try tauto; intros _.
  - destruct v; simpl; split; try congruence.
    + intros ->%Z.eqb_eq. reflexivity.
    + intros [= ->]. apply Z.eqb_refl.
  - destruct v; simpl; split; try congruence.
    + intros ->%String.eqb_eq. reflexivity.
    + intros [= ->]. apply String.eqb_refl.
Qed.

Lemma assign_property_ordinary (o : gmap string value) (name : string) (v : value) :
  name ≠ "__proto__" → assign_property o name v = <[name := v]> o.
Proof.
  intros Hne. unfold assign_property.
  destruct (String.eqb name "__proto__") eqn:E; [|reflexivity].
  apply String.eqb_eq in E. contradiction.
Qed.

Lemma assign_property_same (o : gmap string value) (name : string) (v : value) :
  o !! name = Some v → assign_property o name v = o.
Proof.
  intros Hv. unfold assign_property.
  destruct (String.eqb name "__proto__"); [reflexivity|]. apply insert_id, Hv.
Qed.

Lemma inherited_not_proto (name : string) :
  inherited name = false → name ≠ "__proto__".
Proof. intros Hno ->. vm_compute in Hno. discriminate. Qed.

Lemma lodash_merge_singleton (doc : gmap string value) (key : string) (i : value) :
  is_job_id i →
  lodash_merge (VObj doc) (VObj {[ key := i ]}) = VObj (assign_property doc key i).
Proof.
  intros Hi. simpl. rewrite map_fold_singleton.
  destruct i; simpl in Hi; try contradiction; reflexivity.
Qed.

Lemma lodash_merge_empty (doc : gmap string value) :
  lodash_merge (VObj doc) (VObj ∅) = VObj doc.
Proof. simpl. rewrite map_fold_empty. reflexivity. Qed.

(** Merging the object that [save] builds for a key and an identifier. *)
Lemma lodash_merge_assigned (doc : gmap string value) (key : string) (i : value) :
  is_job_id i →
  lodash_merge (VObj doc) (VObj (assign_property ∅ key i)) =
  VObj (assign_property doc key i).
Proof.
  intros Hi. unfold assign_property at 1.
  destruct (String.eqb key "__proto__") eqn:E.
  - rewrite lodash_merge_empty. unfold assign_property. rewrite E. reflexivity.
  - apply (lodash_merge_singleton doc key i Hi).
Qed.

Lemma lodash_merge_entry (doc : gmap string value) (key : string) (i : value) :
  is_job_id i →
  key ≠ "__proto__" →
  lodash_merge (VObj doc) (VObj {[ key := i ]}) = VObj (<[key := i]> doc).
Proof.
  intros Hi Hne. rewrite (lodash_merge_singleton doc key i Hi).
  rewrite (assign_property_ordinary doc key i Hne). reflexivity.
Qed.

Lemma lodash_merge_unique (m : gmap string value) (v : value) :
  is_job_id v →
  lodash_merge (VObj m) (VObj {[ "unique" := v ]}) = VObj (<["unique" := v]> m).
Proof. intros Hv. apply (lodash_merge_entry m "unique" v Hv). discriminate. Qed.

#[global] Arguments lodash_merge : simpl never.

Lemma lodash_pick_string (doc : gmap string value) (key : string) :
  lodash_pick (VObj doc) (VStr key) =
  match doc !! key with
  | Some v => {[ key := v ]}
  | None => ∅
  end.
Proof. reflexivity. Qed.

Lemma lodash_omit_lookup (doc : gmap string value) (i : value) (key : string) :
  is_job_id i →
  lodash_omit (VObj doc) (λ v, strict_equals v i) !! key =
  match doc !! key with
  | Some v => if strict_equals v i then None else Some v
  | None => None
  end.
Proof.
  intros Hi. unfold lodash_omit. simpl.
  destruct (doc !! key) as [v|] eqn:Hv.
  - destruct (strict_equals v i) eqn:Heq.
    + apply map_lookup_filter_None. right. intros x Hx. simpl.
      rewrite Hv in Hx. injection Hx as <-. congruence.
    + apply map_lookup_filter_Some. split; [assumption | exact Heq].
  - apply map_lookup_filter_None. left. assumption.
Qed.

Lemma exists_singleton (key : string) (v : value) :
  bool_decide (0 < lodash_size (lodash_keys {[ key := v ]}))%nat = true
  ∧ lodash_first (lodash_values {[ key := v ]}) = v.
Proof.
  unfold lodash_size, lodash_keys, lodash_values, lodash_first.
  rewrite map_to_list_singleton. split; reflexivity.
Qed.

Lemma exists_empty :
  bool_decide (0 < lodash_size (lodash_keys ∅))%nat = false.
Proof.
  unfold lodash_size, lodash_keys. rewrite map_to_list_empty. reflexivity.
Qed.

Section Properties.

Variable JSON_parse : string → option value.
Variable JSON_stringify : value → string.
Variable getKey : string → string.
Variable engine : Type.
Variable previousSave : job → engine → option error * job * engine.
Variable Job_get : value → engine → option error * option job * engine.
Variable previousRemove : job → engine → option error * engine.

(** The operations at these parameters, under the names the registry's
    operations go by: [read] is [Job.getUniqueJobsData], [lookup] is
    [Job.getUniqueJobData], [register] is [Job.saveUniqueJobsData] and
    [removeByJobId] is [Job.removeUniqueJobData]. *)
#[local] Abbreviation world := (world engine).
#[local] Abbreviation key := (Job_getUniqueJobsKey getKey).
#[local] Abbreviation decode := (parse_reply JSON_parse).
#[local] Abbreviation read := (Job_getUniqueJobsData JSON_parse getKey engine).
#[local] Abbreviation lookup := (Job_getUniqueJobData JSON_parse getKey engine).
#[local] Abbreviation register :=
  (Job_saveUniqueJobsData JSON_parse JSON_stringify getKey engine).
#[local] Abbreviation removeByJobId :=
  (Job_removeUniqueJobData JSON_parse JSON_stringify getKey engine).
#[local] Abbreviation save :=
  (Job_save JSON_parse JSON_stringify getKey engine previousSave Job_get).
#[local] Abbreviation remove :=
  (Job_remove JSON_parse JSON_stringify getKey engine previousRemove).
#[local] Abbreviation holds := (registry_holds JSON_parse getKey).

(** ** The registry on a store that does not fail *)

(** A document that the store holds is the document that is read. *)
Lemma decode_holds (c : gmap string string) (doc : gmap string value) :
  holds c doc → decode (c !! key) = VObj doc.
Proof.
  unfold registry_holds, parse_reply. destruct (c !! key) as [text|].
  - intros ->. reflexivity.
  - intros ->. reflexivity.
Qed.

Lemma decode_document (text : string) (doc : gmap string value) :
  JSON_parse text = Some (VObj doc) → decode (Some text) = VObj doc.
Proof. intros H. unfold parse_reply. rewrite H. reflexivity. Qed.

Lemma read_reliable (k : engine) (c : gmap string string) (t : list call) :
  read (World k (Redis c []) t) =
  (None, decode (c !! key), World k (Redis c []) (t ++ [ClientGet key None])).
Proof. reflexivity. Qed.

Lemma lookup_reliable (k : engine) (c : gmap string string) (t : list call)
    (unique : value) :
  lookup unique (World k (Redis c []) t) =
  (None, VObj (lodash_pick (decode (c !! key)) unique),
   World k (Redis c []) (t ++ [ClientGet key None])).
Proof. reflexivity. Qed.

Lemma register_reliable (k : engine) (c : gmap string string) (t : list call)
    (uniqueJobData : value) :
  let merged := lodash_merge (decode (c !! key)) uniqueJobData in
  register uniqueJobData (World k (Redis c []) t) =
  (None, merged,
   World k (Redis (<[key := JSON_stringify merged]> c) [])
     (t ++ [ClientGet key None; ClientSet key (JSON_stringify merged) None])).
Proof.
  unfold Job_saveUniqueJobsData. rewrite read_reliable. simpl.
  unfold client_set, record. simpl. rewrite <- app_assoc. reflexivity.
Qed.

Lemma removeByJobId_reliable (k : engine) (c : gmap string string) (t : list call)
    (i : value) :
  let kept := VObj (lodash_omit (decode (c !! key)) (λ v, strict_equals v i)) in
  removeByJobId i (World k (Redis c []) t) =
  (None, kept,
   World k (Redis (<[key := JSON_stringify kept]> c) [])
     (t ++ [ClientGet key None; ClientSet key (JSON_stringify kept) None])).
Proof.
  unfold Job_removeUniqueJobData. rewrite read_reliable. simpl.
  unfold client_set, record. simpl. rewrite <- app_assoc. reflexivity.
Qed.

(** C8. A store-access error raised by the read or by the write of a
    registry operation reaches the caller as it is, and nothing is tried
    again: when the read fails, [lookup], [register] (the merge) and
    [removeByJobId] hand back that error after that one access; when the
    read goes through and the write fails, [register] and [removeByJobId]
    hand back the write's error after one read and one write.  The store's
    content is what it was. *)
Theorem store_errors_are_surfaced (k : engine) (c : gmap string string)
    (fs : list (option error)) (t : list call) (e : error)
    (unique uniqueJobData i : value) :
  let read_fails := World k (Redis c (Some e :: fs)) t in
  let write_fails := World k (Redis c (None :: Some e :: fs)) t in
  let after (calls : list call) := World k (Redis c fs) (t ++ calls) in
  let merged := lodash_merge (decode (c !! key)) uniqueJobData in
  let kept := VObj (lodash_omit (decode (c !! key)) (λ v, strict_equals v i)) in
  lookup unique read_fails = (Some e, VObj ∅, after [ClientGet key (Some e)])
  ∧ register uniqueJobData read_fails =
      (Some e, VObj ∅, after [ClientGet key (Some e)])
  ∧ removeByJobId i read_fails =
      (Some e, VObj ∅, after [ClientGet key (Some e)])
  ∧ register uniqueJobData write_fails =
      (Some e, merged,
       after [ClientGet key None; ClientSet key (JSON_stringify merged) (Some e)])
  ∧ removeByJobId i write_fails =
      (Some e, kept,
       after [ClientGet key None; ClientSet key (JSON_stringify kept) (Some e)]).
Proof.
  repeat split.
  - unfold Job_saveUniqueJobsData, Job_getUniqueJobsData, client_get, client_set, record.
    simpl. rewrite <- app_assoc. reflexivity.
  - unfold Job_removeUniqueJobData, Job_getUniqueJobsData, client_get, client_set, record.
    simpl. rewrite <- app_assoc. reflexivity.
Qed.

(** X24. [merge(key, jobId)] — [saveUniqueJobsData] applied to the object
    [{key: jobId}] — for a key other than [__proto__], on a store that does
    not fail and holds the document [doc]: it reads the document, sets the
    entry of [key] to [jobId] whatever was there, writes the whole document
    back under the registry's key and returns it; every other entry is as
    it was. *)
Theorem merge_sets_the_entry (k : engine) (c : gmap string string) (t : list call)
    (doc : gmap string value) (unique : string) (i : value) :
  holds c doc →
  unique ≠ "__proto__" →
  is_job_id i →
  let updated := <[unique := i]> doc in
  let blob := JSON_stringify (VObj updated) in
  register (VObj {[ unique := i ]}) (World k (Redis c []) t) =
    (None, VObj updated,
     World k (Redis (<[key := blob]> c) [])
       (t ++ [ClientGet key None; ClientSet key blob None]))
  ∧ updated !! unique = Some i
  ∧ ∀ other, other ≠ unique → updated !! other = doc !! other.
Proof.
  intros Hdoc%decode_holds Hproto Hi updated blob. split; [|split].
  - rewrite register_reliable, Hdoc.
    rewrite (lodash_merge_entry doc unique i Hi Hproto). reflexivity.
  - apply lookup_insert_eq.
  - intros other Hne. apply lookup_insert_ne. congruence.
Qed.

(** C9, where the code departs from it. For the key [__proto__] the merge
    sets no entry: the object that [save] builds for it by assignment is
    empty, an object that has it as a property of its own is merged by
    assignment as well, and either way the document is written back, and
    returned, as it was read. *)
Theorem proto_entry_is_never_set (k : engine) (c : gmap string string)
    (t : list call) (doc : gmap string value) (i : value) :
  holds c doc →
  is_job_id i →
  let blob := JSON_stringify (VObj doc) in
  let after :=
    World k (Redis (<[key := blob]> c) [])
      (t ++ [ClientGet key None; ClientSet key blob None]) in
  register (VObj (assign_property ∅ "__proto__" i)) (World k (Redis c []) t) =
    (None, VObj doc, after)
  ∧ register (VObj {[ "__proto__" := i ]}) (World k (Redis c []) t) =
    (None, VObj doc, after).
Proof.
  intros Hdoc%decode_holds Hi blob after. split.
  - rewrite register_reliable, Hdoc, (lodash_merge_assigned doc "__proto__" i Hi).
    reflexivity.
  - rewrite register_reliable, Hdoc, (lodash_merge_singleton doc "__proto__" i Hi).
    reflexivity.
Qed.

(** ** Submission *)

(** A job that carries the non-empty string [unique] as its key takes the
    unique path of [save]. *)
Lemma isUniqueJob_carries (this : job) (unique : string) :
  unique ≠ "" →
  get_unique (data this) = Some (VStr unique) →
  truthy (isUniqueJob this) = true.
Proof.
  intros Hne Hu. unfold isUniqueJob.
  destruct (data this) as [| |b|z|s|m]; cbn [get_unique own_props] in Hu;
    rewrite ?lookup_empty in Hu; try discriminate.
  cbn [truthy get_unique own_props]. rewrite Hu. simpl.
  destruct (String.eqb unique "") eqn:E; [|reflexivity].
  apply String.eqb_eq in E. contradiction.
Qed.

(** [save] of a unique job whose key the registry does not have, on a
    store that does not fail: the job is created, then registered. *)
Lemma save_creates (k : engine) (c : gmap string string) (t : list call)
    (doc : gmap string value) (this : job) (unique : string) :
  unique ≠ "" →
  get_unique (data this) = Some (VStr unique) →
  decode (c !! key) = VObj doc →
  doc !! unique = None →
  save this (World k (Redis c []) t) =
  let '(error, this', k') := previousSave this k in
  let t' := t ++ [ClientGet key None; PreviousSave this error] in
  match error with
  | Some e => (Done (Some e) (AJob this'), this', World k' (Redis c []) t')
  | None =>
      match get_unique (data this') with
      | None => (Uncaught UniqueOfUndefined, this', World k' (Redis c []) t')
      | Some u =>
          let merged :=
            lodash_merge (VObj doc) (VObj (assign_property ∅ (to_key u) (id this'))) in
          (Done None (AJob this'), this',
           World k' (Redis (<[key := JSON_stringify merged]> c) [])
             (t' ++ [ClientGet key None; ClientSet key (JSON_stringify merged) None]))
      end
  end.
Proof.
  intros Hne Hu Hdoc Hnone. unfold Job_save.
  rewrite (isUniqueJob_carries this unique Hne Hu), Hu. simpl default.
  rewrite lookup_reliable, Hdoc, lodash_pick_string, Hnone.
  cbn [own_props]. rewrite exists_empty.
  unfold call_previousSave. cbn [kue client trace].
  destruct (previousSave this k) as [[error this'] k']. unfold record. cbn [kue client trace].
  rewrite <- app_assoc. cbn [app].
  destruct error as [e|]; [reflexivity|].
  destruct (get_unique (data this')) as [u|]; [|reflexivity].
  rewrite register_reliable, Hdoc. reflexivity.
Qed.

(** [save] of a unique job whose key the registry maps to [x], on a store
    that does not fail: the job [x] is fetched, flagged, then registered. *)
Lemma save_finds (k : engine) (c : gmap string string) (t : list call)
    (doc : gmap string value) (this : job) (unique : string) (x : value) :
  unique ≠ "" →
  get_unique (data this) = Some (VStr unique) →
  decode (c !! key) = VObj doc →
  doc !! unique = Some x →
  save this (World k (Redis c []) t) =
  let '(error, job, k') := Job_get x k in
  let t' := t ++ [ClientGet key None; JobGet x error] in
  match error with
  | Some e => (Done (Some e) (argument_of (flag <$> job)), this, World k' (Redis c []) t')
  | None =>
      match job with
      | None => (Uncaught DataOfUndefined, this, World k' (Redis c []) t')
      | Some job =>
          match get_unique (data job) with
          | None => (Uncaught UniqueOfUndefined, this, World k' (Redis c []) t')
          | Some u =>
              let merged :=
                lodash_merge (VObj doc) (VObj (assign_property ∅ (to_key u) (id job))) in
              (Done None (AJob (flag job)), this,
               World k' (Redis (<[key := JSON_stringify merged]> c) [])
                 (t' ++ [ClientGet key None; ClientSet key (JSON_stringify merged) None]))
          end
      end
  end.
Proof.
  intros Hne Hu Hdoc Hsome. unfold Job_save.
  rewrite (isUniqueJob_carries this unique Hne Hu), Hu. simpl default.
  rewrite lookup_reliable, Hdoc, lodash_pick_string, Hsome.
  cbn [own_props].
  destruct (exists_singleton unique x) as [-> ->].
  unfold call_Job_get. cbn [kue client trace].
  destruct (Job_get x k) as [[error job] k']. unfold record. cbn [kue client trace].
  rewrite <- app_assoc. cbn [app].
  destruct error as [e|]; [reflexivity|].
  destruct job as [job|]; [|reflexivity]. cbn [fmap option_fmap option_map].
  change (data (flag job)) with (data job). change (id (flag job)) with (id job).
  destruct (get_unique (data job)) as [u|]; [|reflexivity].
  rewrite register_reliable, Hdoc. reflexivity.
Qed.

(** [save] of a job that fails the test [this.data && this.data.unique]
    is kue's own [save]. *)
Lemma save_plain (this : job) (w : world) :
  truthy (isUniqueJob this) = false →
  save this w =
  let '(error, this', k') := previousSave this (kue w) in
  (Done error ANone, this',
   World k' (client w) (trace w ++ [PreviousSave this error])).
Proof.
  intros Hfalse. unfold Job_save. rewrite Hfalse. unfold call_previousSave.
  destruct (previousSave this (kue w)) as [[error this'] k']. reflexivity.
Qed.

(** C7. A job whose data has no uniqueness key is handed to kue's own
    [save] and to nothing else: the outcome is kue's, the store is the one
    [save] was called on, and the only call made is that to kue — the
    registry document is neither read nor written. *)
Theorem plain_jobs_bypass_the_registry (this : job) (w : world) :
  own_props (data this) !! "unique" = None →
  save this w =
  let '(error, this', k') := previousSave this (kue w) in
  (Done error ANone, this',
   World k' (client w) (trace w ++ [PreviousSave this error])).
Proof.
  intros Hno. apply save_plain.
  unfold isUniqueJob. destruct (truthy (data this)) eqn:Ht; [|exact Ht].
  destruct (data this); simpl in *; try discriminate; rewrite ?Hno; reflexivity.
Qed.

(** [unique] on a job whose data is an object: the key is attached, and
    [save] will take the unique path. *)
Lemma Job_unique_attaches (unique : string) (this : job) (m : gmap string value) :
  data this = VObj m →
  get_unique (data (Job_unique (VStr unique) this)) = Some (VStr unique).
Proof.
  intros Hm. unfold Job_unique. rewrite Hm. cbn [truthy data].
  rewrite (lodash_merge_entry m "unique" (VStr unique) I) by discriminate.
  cbn [get_unique own_props]. rewrite lookup_insert_eq. reflexivity.
Qed.

(** C3, where the code departs from it. On a job whose data is undefined
    [unique] merges the key into an object of its own making and drops it:
    the job is what it was, it still fails the test of [save], and its
    submission goes to kue's own [save] without a look at the registry. *)
Theorem unique_without_data_attaches_nothing (unique i : value) (existed : bool)
    (w : world) :
  let this := {| id := i; data := VUndefined; alreadyExist := existed |} in
  Job_unique unique this = this
  ∧ truthy (isUniqueJob (Job_unique unique this)) = false
  ∧ save (Job_unique unique this) w =
      let '(error, this', k') := previousSave this (kue w) in
      (Done error ANone, this',
       World k' (client w) (trace w ++ [PreviousSave this error])).
Proof.
  intros this. split; [reflexivity|]. split; [reflexivity|].
  apply save_plain. reflexivity.
Qed.

(** What [read] tolerates: a key that is not there, the text [null] and a
    text that [JSON.parse] rejects all read as the empty document, and a
    lookup in it finds nothing. *)
Lemma decode_tolerant (reply : option string) :
  match reply with
  | None => True
  | Some text => JSON_parse text = None ∨ JSON_parse text = Some VNull
  end →
  decode reply = VObj ∅.
Proof.
  unfold parse_reply. destruct reply as [text|]; [|reflexivity].
  intros [-> | ->]; reflexivity.
Qed.

Lemma lookup_tolerant (k : engine) (c : gmap string string) (t : list call)
    (unique : value) :
  decode (c !! key) = VObj ∅ →
  lookup unique (World k (Redis c []) t) =
  (None, VObj ∅, World k (Redis c []) (t ++ [ClientGet key None])).
Proof. intros H. rewrite lookup_reliable, H. reflexivity. Qed.

(** C10. On the path of an entry found in the registry, [save] reads the
    [data] field of a job that is not there exactly when the fetch came
    back with neither an error nor a job: the [TypeError] is raised in the
    registration step, after the read of the registry and the fetch, and
    the caller is never called back. *)
Theorem absent_job_is_dereferenced (k : engine) (c : gmap string string)
    (t : list call) (doc : gmap string value) (this : job) (unique : string)
    (x : value) (error : option error) (job : option job) (k' : engine) :
  unique ≠ "" →
  get_unique (data this) = Some (VStr unique) →
  decode (c !! key) = VObj doc →
  doc !! unique = Some x →
  Job_get x k = (error, job, k') →
  (error = None ∧ job = None →
   save this (World k (Redis c []) t) =
     (Uncaught DataOfUndefined, this,
      World k' (Redis c []) (t ++ [ClientGet key None; JobGet x None])))
  ∧ ((save this (World k (Redis c []) t)).1.1 = Uncaught DataOfUndefined →
     error = None ∧ job = None).
Proof.
  intros Hne Hu Hdoc Hx Hget.
  rewrite (save_finds k c t doc this unique x Hne Hu Hdoc Hx), Hget.
  split.
  - intros [-> ->]. reflexivity.
  - destruct error as [e|]; [discriminate|].
    destruct job as [j|]; [|auto].
    destruct (get_unique (data j)); discriminate.
Qed.

(** A job that [save] creates is never the absent one. *)
Lemma created_job_is_present (k : engine) (c : gmap string string)
    (t : list call) (doc : gmap string value) (this : job) (unique : string) :
  unique ≠ "" →
  get_unique (data this) = Some (VStr unique) →
  decode (c !! key) = VObj doc →
  doc !! unique = None →
  (save this (World k (Redis c []) t)).1.1 ≠ Uncaught DataOfUndefined.
Proof.
  intros Hne Hu Hdoc Hx.
  rewrite (save_creates k c t doc this unique Hne Hu Hdoc Hx).
  destruct (previousSave this k) as [[error this'] k'].
  destruct error as [e|]; [discriminate|].
  destruct (get_unique (data this')); discriminate.
Qed.

(** C2, as the code has it. When the registry maps the submitted key to
    [x] and the fetch of [x] hands back a job, on a store that does not
    fail, [save] flags that job and creates nothing, but does not skip
    the registration: it merges the fetched job's own key and identifier
    into the registry, which reads the document once more and writes it
    back.  When the fetched job carries the submitted key and the
    identifier [x], the document written is the document read. *)
Theorem existing_job_is_registered_again (k : engine) (c : gmap string string)
    (t : list call) (doc : gmap string value) (this j : job) (unique : string)
    (x : value) (k' : engine) :
  unique ≠ "" →
  get_unique (data this) = Some (VStr unique) →
  decode (c !! key) = VObj doc →
  doc !! unique = Some x →
  Job_get x k = (None, Some j, k') →
  get_unique (data j) = Some (VStr unique) →
  id j = x →
  is_job_id x →
  let blob := JSON_stringify (VObj doc) in
  save this (World k (Redis c []) t) =
    (Done None (AJob (flag j)), this,
     World k' (Redis (<[key := blob]> c) [])
       (t ++ [ClientGet key None; JobGet x None;
              ClientGet key None; ClientSet key blob None])).
Proof.
  intros Hne Hu Hdoc Hx Hget Hj Hid Hjob blob.
  rewrite (save_finds k c t doc this unique x Hne Hu Hdoc Hx), Hget, Hj.
  cbn [to_key]. rewrite Hid, (lodash_merge_assigned doc unique x Hjob).
  rewrite (assign_property_same doc unique x Hx). rewrite <- app_assoc. reflexivity.
Qed.

(** What the first of two submissions leaves behind when it comes back
    with the job [J1]: the registry document with the entry of [unique]
    set to the identifier of [J1]. *)
Lemma save_registers (k : engine) (c : gmap string string) (t : list call)
    (doc : gmap string value) (this J1 this' : job) (unique : string)
    (w1 : world) :
  unique ≠ "" →
  unique ≠ "__proto__" →
  get_unique (data this) = Some (VStr unique) →
  decode (c !! key) = VObj doc →
  save this (World k (Redis c []) t) = (Done None (AJob J1), this', w1) →
  get_unique (data J1) = Some (VStr unique) →
  is_job_id (id J1) →
  client w1 =
    Redis (<[key := JSON_stringify (VObj (<[unique := id J1]> doc))]> c) [].
Proof.
  intros Hne Hproto Hu Hdoc Hsave HJ1 Hid.
  destruct (doc !! unique) as [x|] eqn:Hx.
  - rewrite (save_finds k c t doc this unique x Hne Hu Hdoc Hx) in Hsave.
    destruct (Job_get x k) as [[error job] k'].
    destruct error as [e|]; [discriminate|].
    destruct job as [job|]; [|discriminate].
    destruct (get_unique (data job)) as [u|] eqn:Hjob; [|discriminate].
    injection Hsave as <- <- <-.
    change (data (flag job)) with (data job) in HJ1.
    change (id (flag job)) with (id job) in *.
    rewrite Hjob in HJ1. injection HJ1 as ->.
    cbn [client to_key]. rewrite (lodash_merge_assigned doc unique (id job) Hid).
    rewrite (assign_property_ordinary doc unique (id job) Hproto). reflexivity.
  - rewrite (save_creates k c t doc this unique Hne Hu Hdoc Hx) in Hsave.
    destruct (previousSave this k) as [[error created] k'].
    destruct error as [e|]; [discriminate|].
    destruct (get_unique (data created)) as [u|] eqn:Hjob; [|discriminate].
    injection Hsave as <- <- <-.
    rewrite Hjob in HJ1. injection HJ1 as ->.
    cbn [client to_key]. rewrite (lodash_merge_assigned doc unique (id created) Hid).
    rewrite (assign_property_ordinary doc unique (id created) Hproto). reflexivity.
Qed.

(** X23. Two submissions in a row of jobs that carry the same key, a key
    that names no member of [Object.prototype], on a store that does not
    fail and holds a document: once the first has come back with a job
    [J1], registered under the key, the second comes back without error
    with the job fetched under the identifier of [J1] — the same
    identifier — flagged [alreadyExist], and creates nothing. *)
Theorem sequential_submissions_share_the_job (k : engine)
    (c : gmap string string) (t : list call) (doc : gmap string value)
    (unique : string) (jobA jobB J1 jobA' J : job) (w1 : world) (k2 : engine) :
  unique ≠ "" →
  inherited unique = false →
  get_unique (data jobA) = Some (VStr unique) →
  get_unique (data jobB) = Some (VStr unique) →
  holds c doc →
  save jobA (World k (Redis c []) t) = (Done None (AJob J1), jobA', w1) →
  get_unique (data J1) = Some (VStr unique) →
  is_job_id (id J1) →
  JSON_parse (JSON_stringify (VObj (<[unique := id J1]> doc))) =
    Some (VObj (<[unique := id J1]> doc)) →
  fetches_by_id engine Job_get →
  Job_get (id J1) (kue w1) = (None, Some J, k2) →
  is_Some (get_unique (data J)) →
  ∃ (J2 : job) (w2 : world) (blob : string),
    save jobB w1 = (Done None (AJob J2), jobB, w2)
    ∧ id J2 = id J1
    ∧ alreadyExist J2 = true
    ∧ trace w2 =
        trace w1 ++ [ClientGet key None; JobGet (id J1) None;
                     ClientGet key None; ClientSet key blob None].
Proof.
  intros Hne Hproto%inherited_not_proto HA HB Hdoc%decode_holds
    Hsave HJ1 Hid Hrt Hfetch Hget [u HJ].
  pose proof (save_registers k c t doc jobA J1 jobA' unique w1
                Hne Hproto HA Hdoc Hsave HJ1 Hid) as Hclient.
  destruct w1 as [k1 r1 t1]. cbn [client kue trace] in *. subst r1.
  set (doc1 := <[unique := id J1]> doc) in *.
  assert (decode (<[key := JSON_stringify (VObj doc1)]> c !! key) = VObj doc1) as Hdoc1.
  { rewrite lookup_insert_eq. apply decode_document, Hrt. }
  assert (doc1 !! unique = Some (id J1)) as Hx by apply lookup_insert_eq.
  rewrite (save_finds k1 _ t1 doc1 jobB unique (id J1) Hne HB Hdoc1 Hx), Hget, HJ.
  eexists (flag J), _, _. split; [reflexivity|].
  split; [exact (Hfetch _ _ _ _ _ Hget)|].
  split; [reflexivity|].
  cbn [trace default]. rewrite <- app_assoc. reflexivity.
Qed.

(** ** Removal *)

(** [remove] on a store that does not fail, in every order of completion:
    the caller gets kue's verdict, and the registry is cleaned whatever
    that verdict is. *)
Lemma remove_reliable (s : schedule) (this : job) (k : engine)
    (c : gmap string string) (t : list call) :
  let kept := VObj (lodash_omit (decode (c !! key)) (λ v, strict_equals v (id this))) in
  (remove s this (World k (Redis c []) t)).1 = Some (previousRemove this k).1
  ∧ kue (remove s this (World k (Redis c []) t)).2 = (previousRemove this k).2
  ∧ client (remove s this (World k (Redis c []) t)).2 =
      Redis (<[key := JSON_stringify kept]> c) [].
Proof.
  unfold Job_remove, removeJob, removeUniqueData_read, removeUniqueData_write,
    call_previousRemove, Job_getUniqueJobsData, client_get, client_set,
    task_done, record.
  destruct s; cbn; destruct (previousRemove this k) as [[e|] k']; cbn; auto.
Qed.

(** The two halves of the task [removeUniqueData] make up
    [removeUniqueJobData]. *)
Lemma removeUniqueData_whole (i : value) (p : parallel) (w : world) :
  (let '(loaded, st) :=
     removeUniqueData_read JSON_parse getKey engine (p, w) in
   removeUniqueData_write JSON_stringify getKey engine i loaded st) =
  (let '(error, _, w') := removeByJobId i w in
   task_done engine error p w').
Proof.
  unfold removeUniqueData_read, removeUniqueData_write, Job_removeUniqueJobData.
  cbn [fst snd].
  destruct (read w) as [[[e|] uniqueJobsData] w1]; cbn [fst snd]; [reflexivity|].
  destruct (client_set _ _ _ _) as [error w2]. reflexivity.
Qed.

(** C5. [removeByJobId] on a store that does not fail and whose text
    under the registry's key parses to the document [doc]: it reads the document, drops every entry whose value
    is the identifier — all of them, when several keys map to it — and no
    other, writes the result back and returns it.  [remove] applies this
    cleanup in every order of completion and whatever kue's own removal
    answers, which is what the caller is told; so once a job has been
    deleted, a lookup of a key that mapped to it finds nothing. *)
Theorem removeByJobId_forgets_the_job (k : engine) (c : gmap string string)
    (t : list call) (doc : gmap string value) (i : value) :
  holds c doc →
  is_job_id i →
  let kept := lodash_omit (VObj doc) (λ v, strict_equals v i) in
  let blob := JSON_stringify (VObj kept) in
  let w := World k (Redis c []) t in
  removeByJobId i w =
    (None, VObj kept,
     World k (Redis (<[key := blob]> c) [])
       (t ++ [ClientGet key None; ClientSet key blob None]))
  ∧ (∀ unique, doc !! unique = Some i → kept !! unique = None)
  ∧ (∀ unique v, doc !! unique = Some v → v ≠ i → kept !! unique = Some v)
  ∧ (∀ s this, id this = i →
       (remove s this w).1 = Some (previousRemove this k).1
       ∧ client (remove s this w).2 = Redis (<[key := blob]> c) [])
  ∧ (∀ s this unique, id this = i →
       JSON_parse blob = Some (VObj kept) →
       (remove s this w).1 = Some None →
       doc !! unique = Some i →
       (lookup (VStr unique) (remove s this w).2).1 = (None, VObj ∅)).
Proof.
  intros Hdoc%decode_holds Hi kept blob w.
  assert (∀ unique, doc !! unique = Some i → kept !! unique = None) as Hgone.
  { intros unique Hu. unfold kept. rewrite (lodash_omit_lookup doc i unique Hi), Hu.
    rewrite (proj2 (strict_equals_job_id i i Hi) eq_refl). reflexivity. }
  assert (∀ s this, id this = i →
            client (remove s this w).2 = Redis (<[key := blob]> c) []) as Hclean.
  { intros s this <-. unfold w.
    destruct (remove_reliable s this k c t) as (_ & _ & ->).
    unfold blob, kept. rewrite Hdoc. reflexivity. }
  split; [|split; [exact Hgone|split; [|split]]].
  - unfold w. rewrite removeByJobId_reliable, Hdoc. reflexivity.
  - intros unique v Hu Hne. unfold kept.
    rewrite (lodash_omit_lookup doc i unique Hi), Hu.
    destruct (strict_equals v i) eqn:E; [|reflexivity].
    apply (strict_equals_job_id v i Hi) in E. contradiction.
  - intros s this Hid. split; [|exact (Hclean s this Hid)].
    apply (remove_reliable s this k c t).
  - intros s this unique Hid Hrt _ Hu.
    specialize (Hclean s this Hid).
    destruct (remove s this w).2 as [k1 r1 t1]. cbn [client] in Hclean. subst r1.
    rewrite lookup_reliable, lookup_insert_eq. cbn [fst].
    rewrite (decode_document blob kept Hrt).
    rewrite lodash_pick_string, (Hgone unique Hu). reflexivity.
Qed.

(** C4, as async's [parallel] has it. [remove] runs kue's removal and
    the registry's cleanup whatever the other does, and calls the caller
    back once.  When nothing fails the callback comes last, after both
    have finished, and without error.  When something fails the callback
    comes right after the first failure, with that error, and does not
    wait for what is still under way; a later error is not reported, but
    an error of either operation always makes the callback carry one. *)
Theorem remove_reports_the_first_error (s : schedule) (this : job) (w : world) :
  ∃ (calls : list call) (err : option error),
    (remove s this w).1 = Some err
    ∧ trace (remove s this w).2 = trace w ++ calls
    ∧ List.filter is_finalize calls = [Finalize err]
    ∧ err = first_error calls
    ∧ (∃ e, PreviousRemove this e ∈ calls)
    ∧ (∃ e, ClientGet key e ∈ calls)
    ∧ (ClientGet key None ∈ calls → ∃ blob e, ClientSet key blob e ∈ calls)
    ∧ match err with
      | None => last calls = Some (Finalize None)
      | Some e =>
          ∃ before failed after,
            calls = before ++ [failed; Finalize (Some e)] ++ after
            ∧ call_error failed = Some e
            ∧ first_error before = None
      end.
Proof.
  unfold Job_remove, removeJob, removeUniqueData_read, removeUniqueData_write,
    call_previousRemove, Job_getUniqueJobsData, client_get, client_set,
    redis_get, redis_set, next_fault, task_done, record.
  destruct w as [k [c fs] t].
  destruct s;
    destruct fs as [|[e1|] fs]; try destruct fs as [|[e2|] fs]; cbn;
    destruct (previousRemove this k) as [[er|] k']; cbn;
    rewrite <- ?app_assoc; cbn [app];
    eexists _, _; (split; [reflexivity|]); (split; [reflexivity|]);
    (split; [reflexivity|]); (split; [reflexivity|]);
    (split; [eexists; in_list|]); (split; [eexists; in_list|]);
    (split; [intros Hin; first [eexists _, _; in_list | not_in_list Hin]|]);
    try reflexivity;
    first [ eexists [], _, _; split; [reflexivity|split; reflexivity]
          | eexists [_], _, _; split; [reflexivity|split; reflexivity]
          | eexists [_; _], _, _; split; [reflexivity|split; reflexivity] ].
Qed.

End Properties.

(** * The properties at work on the small queue *)

Lemma strict_equals_eq (a b : value) : strict_equals a b = true → a = b.
Proof.
  destruct a, b; simpl; try discriminate; try reflexivity.
  - intros ->%Bool.eqb_prop. reflexivity.
  - intros ->%Z.eqb_eq. reflexivity.
  - intros ->%String.eqb_eq. reflexivity.
Qed.

Lemma Demo_fetches_by_id : fetches_by_id Demo.engine Demo.Job_get.
Proof.
  intros i jobs error j jobs'. unfold Demo.Job_get.
  destruct (List.find (Demo.has_id i) jobs) as [found|] eqn:Hfind; [|discriminate].
  intros [= _ <- _]. apply List.find_some in Hfind as [_ Hid].
  apply strict_equals_eq. exact Hid.
Qed.

Example submit_jobA :
  Demo.Job_save Demo.jobA Demo.empty_world =
  (Done None (AJob Demo.job1), Demo.job1, Demo.after_jobA).
Proof. vm_compute. reflexivity. Qed.

Example submit_jobB :
  Demo.Job_save Demo.jobB Demo.after_jobA =
  (Done None (AJob (flag Demo.job1)), Demo.jobB,
   {| kue := [Demo.job1];
      client := client Demo.after_jobA;
      trace := trace Demo.after_jobA ++
               [ClientGet Demo.key None; JobGet (VNum 1) None;
                ClientGet Demo.key None;
                ClientSet Demo.key Demo.order_42_is_1 None] |}).
Proof. vm_compute. reflexivity. Qed.

Example delete_job1 :
  Demo.Job_remove RemoveJobLast Demo.job1 Demo.after_jobA =
  (Some None,
   {| kue := [];
      client := {| content := {[ Demo.key := "{}" ]}; faults := [] |};
      trace := trace Demo.after_jobA ++
               [ClientGet Demo.key None; ClientSet Demo.key "{}" None;
                PreviousRemove Demo.job1 None; Finalize None] |}).
Proof. vm_compute. reflexivity. Qed.

(** An instance of X24: the first registration in an empty store. *)
Lemma merge_sets_the_entry_witness :
  Job_saveUniqueJobsData Demo.JSON_parse Demo.JSON_stringify Demo.getKey Demo.engine
    (VObj {[ "order-42" := VNum 1 ]}) Demo.empty_world =
  (None, VObj {[ "order-42" := VNum 1 ]},
   World [] (Redis {[ Demo.key := Demo.order_42_is_1 ]} [])
     [ClientGet Demo.key None; ClientSet Demo.key Demo.order_42_is_1 None]).
Proof.
  exact (proj1 (merge_sets_the_entry Demo.JSON_parse Demo.JSON_stringify
                  Demo.getKey Demo.engine [] ∅ [] ∅ "order-42" (VNum 1) eq_refl
                  ltac:(discriminate) I)).
Defined.

(** An instance of C9's departure: job 2 is registered under [__proto__]
    next to job 1, and the registry is written back with job 1 alone. *)
Lemma proto_entry_is_never_set_witness :
  Job_saveUniqueJobsData Demo.JSON_parse Demo.JSON_stringify Demo.getKey Demo.engine
    (VObj (assign_property ∅ "__proto__" (VNum 2))) Demo.after_jobA =
  (None, VObj {[ "order-42" := VNum 1 ]},
   World [Demo.job1]
     (Redis (<[Demo.key := Demo.JSON_stringify (VObj {[ "order-42" := VNum 1 ]})]>
               {[ Demo.key := Demo.order_42_is_1 ]}) [])
     (trace Demo.after_jobA ++
      [ClientGet Demo.key None;
       ClientSet Demo.key (Demo.JSON_stringify (VObj {[ "order-42" := VNum 1 ]}))
         None])).
Proof.
  refine (proj1 (proto_entry_is_never_set Demo.JSON_parse Demo.JSON_stringify
            Demo.getKey Demo.engine [Demo.job1] {[ Demo.key := Demo.order_42_is_1 ]}
            (trace Demo.after_jobA) {[ "order-42" := VNum 1 ]} (VNum 2) _ I)).
  vm_compute. reflexivity.
Defined.

(** An instance of C5: job 1 is deleted and its key is free again. *)
Lemma removeByJobId_forgets_the_job_witness :
  (Job_getUniqueJobData Demo.JSON_parse Demo.getKey Demo.engine (VStr "order-42")
     (Demo.Job_remove RemoveJobFirst Demo.job1 Demo.after_jobA).2).1 =
  (None, VObj ∅).
Proof.
  refine (proj2 (proj2 (proj2 (proj2
    (removeByJobId_forgets_the_job Demo.JSON_parse Demo.JSON_stringify
       Demo.getKey Demo.engine Demo.previousRemove
       [Demo.job1] {[ Demo.key := Demo.order_42_is_1 ]} (trace Demo.after_jobA)
       {[ "order-42" := VNum 1 ]} (VNum 1) _ I))))
    RemoveJobFirst Demo.job1 "order-42" _ _ _ _);
    vm_compute; reflexivity.
Defined.

(** An instance of C7: a job without a key goes straight to kue. *)
Lemma plain_jobs_bypass_the_registry_witness :
  Demo.Job_save (Demo.new_job (VObj {[ "title" := VStr "welcome" ]})) Demo.after_jobA =
  (Done None ANone,
   {| id := VNum 2; data := VObj {[ "title" := VStr "welcome" ]}; alreadyExist := false |},
   {| kue := [Demo.job1;
              {| id := VNum 2; data := VObj {[ "title" := VStr "welcome" ]};
                 alreadyExist := false |}];
      client := client Demo.after_jobA;
      trace := trace Demo.after_jobA ++
               [PreviousSave (Demo.new_job (VObj {[ "title" := VStr "welcome" ]})) None] |}).
Proof.
  refine (plain_jobs_bypass_the_registry Demo.JSON_parse Demo.JSON_stringify
            Demo.getKey Demo.engine Demo.previousSave Demo.Job_get
            (Demo.new_job (VObj {[ "title" := VStr "welcome" ]})) Demo.after_jobA _).
  vm_compute. reflexivity.
Defined.

(** An instance of C10: the registry points at a job that the fetch passes
    over in silence. *)
Lemma absent_job_is_dereferenced_witness :
  Job_save Demo.JSON_parse Demo.JSON_stringify Demo.getKey Demo.engine
    Demo.previousSave Demo.Job_get_silent Demo.jobB Demo.dangling =
  (Uncaught DataOfUndefined, Demo.jobB,
   {| kue := []; client := client Demo.dangling;
      trace := [ClientGet Demo.key None; JobGet (VNum 1) None] |}).
Proof.
  refine (proj1 (absent_job_is_dereferenced Demo.JSON_parse Demo.JSON_stringify
            Demo.getKey Demo.engine Demo.previousSave Demo.Job_get_silent
            [] {[ Demo.key := Demo.order_42_is_1 ]} [] {[ "order-42" := VNum 1 ]}
            Demo.jobB "order-42" (VNum 1) None None [] _ _ _ _ _) (conj eq_refl eq_refl));
    first [ discriminate | vm_compute; reflexivity ].
Defined.

(** C2, refuted. [jobB] is submitted after [jobA]: its key is found, and
    the submission goes on to read the registry document a second time and
    to write it. *)
Lemma existing_job_write_counterexample :
  let '(_, _, w) := Demo.Job_save Demo.jobB Demo.after_jobA in
  (Job_getUniqueJobData Demo.JSON_parse Demo.getKey Demo.engine
     (VStr "order-42") Demo.after_jobA).1 =
    (None, VObj {[ "order-42" := VNum 1 ]})
  ∧ drop (length (trace Demo.after_jobA)) (trace w) =
      [ClientGet Demo.key None; JobGet (VNum 1) None;
       ClientGet Demo.key None; ClientSet Demo.key Demo.order_42_is_1 None]
  ∧ existsb is_write (drop (length (trace Demo.after_jobA)) (trace w)) = true.
Proof. vm_compute. repeat split. Qed.

(** An instance of C2 as the code has it. *)
Lemma existing_job_is_registered_again_witness :
  Demo.Job_save Demo.jobB Demo.after_jobA =
  (Done None (AJob (flag Demo.job1)), Demo.jobB,
   World [Demo.job1]
     (Redis (<[Demo.key := Demo.JSON_stringify (VObj {[ "order-42" := VNum 1 ]})]>
               {[ Demo.key := Demo.order_42_is_1 ]}) [])
     (trace Demo.after_jobA ++
      [ClientGet Demo.key None; JobGet (VNum 1) None; ClientGet Demo.key None;
       ClientSet Demo.key (Demo.JSON_stringify (VObj {[ "order-42" := VNum 1 ]})) None])).
Proof.
  refine (existing_job_is_registered_again Demo.JSON_parse Demo.JSON_stringify
            Demo.getKey Demo.engine Demo.previousSave Demo.Job_get
            [Demo.job1] {[ Demo.key := Demo.order_42_is_1 ]} (trace Demo.after_jobA)
            {[ "order-42" := VNum 1 ]} Demo.jobB Demo.job1 "order-42" (VNum 1)
            [Demo.job1] _ _ _ _ _ _ _ I);
    first [ discriminate | vm_compute; reflexivity ].
Defined.

(** An instance of X23: [jobA], then [jobB]. *)
Lemma sequential_submissions_share_the_job_witness :
  ∃ (J2 : job) (w2 : world Demo.engine) (blob : string),
    Demo.Job_save Demo.jobB Demo.after_jobA = (Done None (AJob J2), Demo.jobB, w2)
    ∧ id J2 = VNum 1
    ∧ alreadyExist J2 = true
    ∧ trace w2 =
        trace Demo.after_jobA ++
        [ClientGet Demo.key None; JobGet (VNum 1) None;
         ClientGet Demo.key None; ClientSet Demo.key blob None].
Proof.
  refine (sequential_submissions_share_the_job Demo.JSON_parse Demo.JSON_stringify
            Demo.getKey Demo.engine Demo.previousSave Demo.Job_get
            [] ∅ [] ∅ "order-42" Demo.jobA Demo.jobB Demo.job1 Demo.job1 Demo.job1
            Demo.after_jobA [Demo.job1] _ _ _ _ _ _ _ I _ Demo_fetches_by_id _ _);
    first [ discriminate | vm_compute; reflexivity | vm_compute; eexists; reflexivity ].
Defined.

(** C4, refuted. The registry points at job 1, which kue does not have:
    kue's removal fails first, the caller is called back with its error at
    once, and the cleanup of the registry reads and writes after that. *)
Lemma callback_before_cleanup_counterexample :
  Demo.Job_remove RemoveJobFirst Demo.job1 Demo.dangling =
  (Some (Some (Error "job does not exist")),
   {| kue := [];
      client := {| content := {[ Demo.key := "{}" ]}; faults := [] |};
      trace := [PreviousRemove Demo.job1 (Some (Error "job does not exist"));
                Finalize (Some (Error "job does not exist"));
                ClientGet Demo.key None;
                ClientSet Demo.key "{}" None] |})
  ∧ last (trace (Demo.Job_remove RemoveJobFirst Demo.job1 Demo.dangling).2) ≠
      Some (Finalize (Some (Error "job does not exist"))).
Proof. vm_compute. split; [reflexivity|discriminate]. Qed.

(** C1, where the code departs from it. Two jobs are tagged with the key
    [__proto__] and submitted in a row to an empty queue, on a store that
    does not fail.  The first is created as job 1 and its registration
    assigns to [__proto__], which sets no entry: the registry is written as
    [{}].  The second finds no entry and is created as job 2: another
    identifier, and no flag. *)
Theorem proto_key_is_submitted_twice :
  let registry := {| content := {[ Demo.key := "{}" ]}; faults := [] |} in
  let first :=
    [ClientGet Demo.key None; PreviousSave Demo.proto_job None;
     ClientGet Demo.key None; ClientSet Demo.key "{}" None] in
  let w1 := {| kue := [Demo.proto_job1]; client := registry; trace := first |} in
  let w2 :=
    {| kue := [Demo.proto_job1; Demo.proto_job2]; client := registry;
       trace := first ++ first |} in
  Demo.Job_save Demo.proto_job Demo.empty_world =
    (Done None (AJob Demo.proto_job1), Demo.proto_job1, w1)
  ∧ Demo.Job_save Demo.proto_job w1 =
    (Done None (AJob Demo.proto_job2), Demo.proto_job2, w2)
  ∧ id Demo.proto_job2 ≠ id Demo.proto_job1
  ∧ alreadyExist Demo.proto_job2 = false.
Proof. vm_compute. repeat split. discriminate. Qed.

(** C6, where the code departs from it. The registry's key holds [42], a
    text that parses, to a number: [read] hands back the number, not the
    empty document.  A lookup in it still finds nothing, but a registration
    merges into the number, which takes no entry, and writes [42] back. *)
Theorem number_is_read_as_it_is :
  Job_getUniqueJobsData Demo.JSON_parse Demo.getKey Demo.engine Demo.overwritten =
    (None, VNum 42,
     {| kue := []; client := client Demo.overwritten;
        trace := [ClientGet Demo.key None] |})
  ∧ Job_getUniqueJobData Demo.JSON_parse Demo.getKey Demo.engine
      (VStr "order-42") Demo.overwritten =
    (None, VObj ∅,
     {| kue := []; client := client Demo.overwritten;
        trace := [ClientGet Demo.key None] |})
  ∧ Job_saveUniqueJobsData Demo.JSON_parse Demo.JSON_stringify Demo.getKey Demo.engine
      (VObj {[ "order-42" := VNum 1 ]}) Demo.overwritten =
    (None, VNum 42,
     {| kue := []; client := client Demo.overwritten;
        trace := [ClientGet Demo.key None; ClientSet Demo.key "42" None] |}).
Proof. vm_compute. repeat split. Qed.

(** * Further behaviour of the module *)

Section Behaviour.

Variable JSON_parse : string → option value.
Variable JSON_stringify : value → string.
Variable getKey : string → string.
Variable engine : Type.
Variable previousSave : job → engine → option error * job * engine.
Variable Job_get : value → engine → option error * option job * engine.
Variable previousRemove : job → engine → option error * engine.

#[local] Abbreviation world := (world engine).
#[local] Abbreviation key := (Job_getUniqueJobsKey getKey).
#[local] Abbreviation decode := (parse_reply JSON_parse).
#[local] Abbreviation read := (Job_getUniqueJobsData JSON_parse getKey engine).
#[local] Abbreviation lookup := (Job_getUniqueJobData JSON_parse getKey engine).
#[local] Abbreviation register :=
  (Job_saveUniqueJobsData JSON_parse JSON_stringify getKey engine).
#[local] Abbreviation removeByJobId :=
  (Job_removeUniqueJobData JSON_parse JSON_stringify getKey engine).
#[local] Abbreviation save :=
  (Job_save JSON_parse JSON_stringify getKey engine previousSave Job_get).
#[local] Abbreviation remove :=
  (Job_remove JSON_parse JSON_stringify getKey engine previousRemove).

#[local] Abbreviation holds := (registry_holds JSON_parse getKey).

(** Unfolding the module down to the store and to kue. *)
Ltac to_calls :=
  unfold Job_save, Job_remove, removeJob, removeUniqueData_read,
    removeUniqueData_write, overlapping_saveUniqueJobsData,
    saveUniqueJobsData_resume, saveUniqueJobsData_save,
    Job_getUniqueJobData, Job_saveUniqueJobsData, Job_removeUniqueJobData,
    Job_getUniqueJobsData, call_Job_get, call_previousSave, call_previousRemove,
    client_get, client_set, redis_get, redis_set, next_fault, task_done, record.

(** ** Tagging a job *)

(** X1. [unique] on a job whose data is an object sets the property
    [unique] of the data to the key, over any key set before, and leaves
    the other properties, the identifier and the flag alone; with a key
    that is not the empty string the job then passes the test of [save];
    and of two calls in a row the last one decides. *)
Theorem unique_tags_an_object (unique : string) (this : job) (m : gmap string value) :
  data this = VObj m →
  let tagged := Job_unique (VStr unique) this in
  data tagged = VObj (<["unique" := VStr unique]> m)
  ∧ (∀ property, property ≠ "unique" →
       own_props (data tagged) !! property = m !! property)
  ∧ id tagged = id this
  ∧ alreadyExist tagged = alreadyExist this
  ∧ (unique ≠ "" → truthy (isUniqueJob tagged) = true)
  ∧ (∀ again, Job_unique (VStr again) tagged = Job_unique (VStr again) this).
Proof.
  intros Hm tagged.
  assert (data tagged = VObj (<["unique" := VStr unique]> m)) as Hdata.
  { unfold tagged, Job_unique. rewrite Hm. cbn [truthy data].
    apply (lodash_merge_unique m (VStr unique) I). }
  split; [exact Hdata|]. split; [|split; [|split; [|split]]].
  - intros property Hne. rewrite Hdata. cbn [own_props].
    apply lookup_insert_ne. congruence.
  - unfold tagged, Job_unique. rewrite Hm. reflexivity.
  - unfold tagged, Job_unique. rewrite Hm. reflexivity.
  - intros Hne. apply (isUniqueJob_carries tagged unique Hne).
    rewrite Hdata. cbn [get_unique own_props]. rewrite lookup_insert_eq. reflexivity.
  - intros again. unfold Job_unique at 1. rewrite Hdata. cbn [truthy].
    rewrite (lodash_merge_unique _ (VStr again) I), insert_insert_eq.
    unfold Job_unique. rewrite Hm. cbn [truthy].
    rewrite (lodash_merge_unique m (VStr again) I).
    unfold tagged, Job_unique. rewrite Hm. reflexivity.
Qed.

(** ** Submission: the ways out *)

(** X2. A key that converts to false — the empty string, zero, [null],
    [false] — is no key: the job fails the test of [save] and goes to
    kue's own [save], and the registry is neither read nor written. *)
Theorem falsy_key_is_no_key (this : job) (u : value) (w : world) :
  get_unique (data this) = Some u →
  truthy u = false →
  save this w =
  let '(error, this', k') := previousSave this (kue w) in
  (Done error ANone, this',
   World k' (client w) (trace w ++ [PreviousSave this error])).
Proof.
  intros Hu Hfalse.
  apply (save_plain JSON_parse JSON_stringify getKey engine previousSave Job_get).
  unfold isUniqueJob. rewrite Hu. cbn [default].
  destruct (truthy (data this)) eqn:Ht; [exact Hfalse|exact Ht].
Qed.

(** X3. When the read of the registry fails, the submission of a unique
    job ends there: the caller gets the store's error, no job is fetched
    and none is created, and nothing is written. *)
Theorem failed_lookup_creates_nothing (this : job) (k : engine)
    (c : gmap string string) (fs : list (option error)) (t : list call) (e : error) :
  truthy (isUniqueJob this) = true →
  save this (World k (Redis c (Some e :: fs)) t) =
  (Done (Some e) (AData (VObj ∅)), this,
   World k (Redis c fs) (t ++ [ClientGet key (Some e)])).
Proof.
  intros Hu. unfold Job_save. rewrite Hu. reflexivity.
Qed.

(** The steps of a submission on a store whose next access goes through. *)
Lemma lookup_passes (k : engine) (c : gmap string string)
    (fs : list (option error)) (t : list call) (unique : value) :
  lookup unique (World k (Redis c (None :: fs)) t) =
  (None, VObj (lodash_pick (decode (c !! key)) unique),
   World k (Redis c fs) (t ++ [ClientGet key None])).
Proof. reflexivity. Qed.

Lemma save_looks_up (k : engine) (c : gmap string string)
    (fs : list (option error)) (t : list call) (doc : gmap string value)
    (this : job) (unique : string) :
  unique ≠ "" →
  get_unique (data this) = Some (VStr unique) →
  decode (c !! key) = VObj doc →
  save this (World k (Redis c (None :: fs)) t) =
  let w := World k (Redis c fs) (t ++ [ClientGet key None]) in
  let '(error, job, this, w) :=
    match doc !! unique with
    | Some x =>
        let '(error, job, w) := call_Job_get engine Job_get x w in
        (error, flag <$> job, this, w)
    | None =>
        let '(error, this, w) := call_previousSave engine previousSave this w in
        (error, Some this, this, w)
    end in
  match error with
  | Some e => (Done (Some e) (argument_of job), this, w)
  | None =>
      match job with
      | None => (Uncaught DataOfUndefined, this, w)
      | Some job =>
          match get_unique (data job) with
          | None => (Uncaught UniqueOfUndefined, this, w)
          | Some u =>
              let '(error, _, w) :=
                register (VObj (assign_property ∅ (to_key u) (id job))) w in
              (Done error (AJob job), this, w)
          end
      end
  end.
Proof.
  intros Hne Hu Hdoc. unfold Job_save.
  rewrite (isUniqueJob_carries this unique Hne Hu), Hu. simpl default.
  rewrite lookup_passes, Hdoc, lodash_pick_string. cbn [own_props].
  destruct (doc !! unique) as [x|].
  - destruct (exists_singleton unique x) as [-> ->]. reflexivity.
  - rewrite exists_empty. reflexivity.
Qed.

(** X4. When kue fails to save a job whose key — a key that names no
    member of [Object.prototype] — the registry does not have, the caller
    gets kue's error together with the job, and the registry is left alone:
    no second read, no write. *)
Theorem failed_creation_registers_nothing (k : engine) (c : gmap string string)
    (fs : list (option error)) (t : list call) (doc : gmap string value)
    (this this' : job) (unique : string) (e : error) (k' : engine) :
  unique ≠ "" →
  inherited unique = false →
  get_unique (data this) = Some (VStr unique) →
  holds c doc →
  doc !! unique = None →
  previousSave this k = (Some e, this', k') →
  save this (World k (Redis c (None :: fs)) t) =
  (Done (Some e) (AJob this'), this',
   World k' (Redis c fs) (t ++ [ClientGet key None; PreviousSave this (Some e)])).
Proof.
  intros Hne _ Hu Hdoc%(decode_holds JSON_parse getKey) Hnone Hsave.
  rewrite (save_looks_up k c fs t doc this unique Hne Hu Hdoc), Hnone.
  unfold call_previousSave, record. cbn [kue client trace]. rewrite Hsave.
  cbn [argument_of]. rewrite <- app_assoc. reflexivity.
Qed.

(** X5. When kue has saved a job whose key names no member of
    [Object.prototype] and the registration fails — at its read of the
    registry or at its write — the caller gets the store's error together
    with the job: the job exists in kue, and the registry does not know
    it. *)
Theorem failed_registration_leaves_the_job (k : engine) (c : gmap string string)
    (fs : list (option error)) (t : list call) (doc : gmap string value)
    (this this' : job) (unique : string) (e : error) (k' : engine) :
  unique ≠ "" →
  inherited unique = false →
  get_unique (data this) = Some (VStr unique) →
  holds c doc →
  doc !! unique = None →
  previousSave this k = (None, this', k') →
  get_unique (data this') = Some (VStr unique) →
  is_job_id (id this') →
  let blob := JSON_stringify (VObj (<[unique := id this']> doc)) in
  save this (World k (Redis c (None :: Some e :: fs)) t) =
    (Done (Some e) (AJob this'), this',
     World k' (Redis c fs)
       (t ++ [ClientGet key None; PreviousSave this None; ClientGet key (Some e)]))
  ∧ save this (World k (Redis c (None :: None :: Some e :: fs)) t) =
    (Done (Some e) (AJob this'), this',
     World k' (Redis c fs)
       (t ++ [ClientGet key None; PreviousSave this None; ClientGet key None;
              ClientSet key blob (Some e)])).
Proof.
  intros Hne Hproto%inherited_not_proto Hu Hdoc%(decode_holds JSON_parse getKey)
    Hnone Hsave Hu' Hid blob.
  split.
  - rewrite (save_looks_up k c _ t doc this unique Hne Hu Hdoc), Hnone.
    unfold call_previousSave, record. cbn [kue client trace]. rewrite Hsave, Hu'.
    to_calls. cbn. rewrite <- !app_assoc. reflexivity.
  - rewrite (save_looks_up k c _ t doc this unique Hne Hu Hdoc), Hnone.
    unfold call_previousSave, record. cbn [kue client trace]. rewrite Hsave, Hu'.
    to_calls. cbn. rewrite Hdoc, (lodash_merge_assigned doc unique _ Hid).
    rewrite (assign_property_ordinary doc unique _ Hproto), <- !app_assoc.
    reflexivity.
Qed.

(** X6. When the registry has the key and the fetch of the job it points
    at fails — the job was removed behind the registry's back — the caller
    gets kue's error; nothing is created in its place and the registry keeps
    the entry. *)
Theorem failed_fetch_creates_nothing (k : engine) (c : gmap string string)
    (fs : list (option error)) (t : list call) (doc : gmap string value)
    (this : job) (unique : string) (x : value) (e : error) (job : option job)
    (k' : engine) :
  unique ≠ "" →
  get_unique (data this) = Some (VStr unique) →
  decode (c !! key) = VObj doc →
  doc !! unique = Some x →
  Job_get x k = (Some e, job, k') →
  save this (World k (Redis c (None :: fs)) t) =
  (Done (Some e) (argument_of (flag <$> job)), this,
   World k' (Redis c fs) (t ++ [ClientGet key None; JobGet x (Some e)])).
Proof.
  intros Hne Hu Hdoc Hsome Hget.
  rewrite (save_looks_up k c fs t doc this unique Hne Hu Hdoc), Hsome.
  unfold call_Job_get, record. cbn [kue client trace]. rewrite Hget.
  rewrite <- app_assoc. reflexivity.
Qed.

(** X7. When the job the registry points at comes back with data that is
    undefined or null, reading its key raises a [TypeError]: the caller is
    never called back, and the registry is not written. *)
Theorem fetched_job_without_data_raises (k : engine) (c : gmap string string)
    (fs : list (option error)) (t : list call) (doc : gmap string value)
    (this j : job) (unique : string) (x : value) (k' : engine) :
  unique ≠ "" →
  get_unique (data this) = Some (VStr unique) →
  decode (c !! key) = VObj doc →
  doc !! unique = Some x →
  Job_get x k = (None, Some j, k') →
  get_unique (data j) = None →
  save this (World k (Redis c (None :: fs)) t) =
  (Uncaught UniqueOfUndefined, this,
   World k' (Redis c fs) (t ++ [ClientGet key None; JobGet x None])).
Proof.
  intros Hne Hu Hdoc Hsome Hget Hnodata.
  rewrite (save_looks_up k c fs t doc this unique Hne Hu Hdoc), Hsome.
  unfold call_Job_get, record. cbn [kue client trace]. rewrite Hget.
  cbn [fmap option_fmap option_map]. change (data (flag j)) with (data j).
  rewrite Hnodata, <- app_assoc. reflexivity.
Qed.

(** X8. Whatever the store and kue answer, a submission stops at the first
    call that fails and hands its error to the caller — or no error when
    none failed.  It calls kue at most once (a fetch or a creation, never
    both), reads the registry at most twice, and writes it at most once, as
    its last call. *)
Theorem save_stops_at_the_first_failure (this : job) (w : world) :
  ∃ calls : list call,
    trace (save this w).2 = trace w ++ calls
    ∧ first_error (removelast calls) = None
    ∧ match (save this w).1.1 with
      | Done err _ => err = first_error calls
      | Uncaught _ => first_error calls = None
      end
    ∧ List.filter is_write (removelast calls) = []
    ∧ (length (List.filter is_kue_call calls) ≤ 1)%nat
    ∧ (length (List.filter is_read calls) ≤ 2)%nat.
Proof.
  to_calls. destruct w as [k [c fs] t]. cbn.
  repeat (case_match; cbn in *; simplify_eq);
    rewrite <- ?app_assoc; cbn [app];
    eexists; (split; [reflexivity|]); cbn; repeat split;
    first [ lia | by destruct err ].
Qed.

(** X9. The job a submission hands to the caller is one of two: the job
    fetched from kue, flagged [alreadyExist], or the submitted job itself
    as kue's [save] left it. *)
Theorem returned_job_is_fetched_or_created (this : job) (w : world) :
  ∃ calls : list call,
    trace (save this w).2 = trace w ++ calls
    ∧ ∀ err j, (save this w).1.1 = Done err (AJob j) →
        ((∃ i e, JobGet i e ∈ calls) ∧ alreadyExist j = true
         ∧ (save this w).1.2 = this)
        ∨ ((∃ e, PreviousSave this e ∈ calls) ∧ j = (save this w).1.2).
Proof.
  to_calls. destruct w as [k [c fs] t]. cbn.
  repeat (case_match; cbn in *; simplify_eq);
    rewrite <- ?app_assoc; cbn [app];
    eexists; (split; [reflexivity|]); intros ? ? [=]; subst;
    repeat match goal with
           | H : argument_of (flag <$> ?o) = _ |- _ =>
               destruct o; cbn in H; simplify_eq
           | H : flag <$> ?o = Some _ |- _ =>
               destruct o; cbn in H; simplify_eq
           end;
    first [ left; split; [eexists _, _; in_list | split; reflexivity]
          | right; split; [eexists; in_list | reflexivity] ].
Qed.

(** X10. When the job the registry points at carries no key, its
    registration does not fail: the key read from it is [undefined], and the
    registry gets an entry named ["undefined"] for its identifier. *)
Theorem keyless_job_is_registered_as_undefined (k : engine)
    (c : gmap string string) (t : list call) (doc mj : gmap string value)
    (this j : job) (unique : string) (x : value) (k' : engine) :
  unique ≠ "" →
  get_unique (data this) = Some (VStr unique) →
  decode (c !! key) = VObj doc →
  doc !! unique = Some x →
  Job_get x k = (None, Some j, k') →
  data j = VObj mj →
  mj !! "unique" = None →
  is_job_id (id j) →
  let blob := JSON_stringify (VObj (<["undefined" := id j]> doc)) in
  save this (World k (Redis c []) t) =
    (Done None (AJob (flag j)), this,
     World k' (Redis (<[key := blob]> c) [])
       (t ++ [ClientGet key None; JobGet x None;
              ClientGet key None; ClientSet key blob None])).
Proof.
  intros Hne Hu Hdoc Hx Hget Hj Hnokey Hid blob.
  rewrite (save_finds JSON_parse JSON_stringify getKey engine previousSave Job_get
             k c t doc this unique x Hne Hu Hdoc Hx), Hget, Hj.
  cbn [get_unique own_props]. rewrite Hnokey. cbn [default from_option to_key].
  rewrite (lodash_merge_assigned doc "undefined" (id j) Hid).
  rewrite (assign_property_ordinary doc "undefined" (id j)) by discriminate.
  rewrite <- app_assoc. reflexivity.
Qed.

(** ** The registry: how its operations compose *)

(** The two tasks of [saveUniqueJobsData] make up the whole. *)
Lemma saveUniqueJobsData_whole (uniqueJobData : value) (w : world) :
  register uniqueJobData w =
  let '(error, loaded, w') := read w in
  saveUniqueJobsData_resume JSON_stringify getKey engine uniqueJobData (error, loaded) w'.
Proof.
  unfold Job_saveUniqueJobsData, saveUniqueJobsData_resume, saveUniqueJobsData_save.
  destruct (read w) as [[[e|] loaded] w']; reflexivity.
Qed.

(** X11. A lookup only reads: kue and the content of the store are what
    they were and the one call made is a read of the registry's key.  What
    it returns has at most one entry.  When the store holds a document and
    the name looked up names no member of [Object.prototype], what it
    returns is the entry of that name, or nothing when the document has
    none. *)
Theorem lookup_only_reads (unique : value) (w : world) :
  let result := lookup unique w in
  kue result.2 = kue w
  ∧ content (client result.2) = content (client w)
  ∧ trace result.2 = trace w ++ [ClientGet key result.1.1]
  ∧ (size (own_props result.1.2) ≤ 1)%nat
  ∧ ∀ name doc,
      unique = VStr name →
      inherited name = false →
      holds (content (client w)) doc →
      result.1.1 = None →
      result.1.2 =
        VObj match doc !! name with
             | Some v => {[ name := v ]}
             | None => ∅
             end.
Proof.
  intros result. unfold result. to_calls. destruct w as [k [c fs] t]. cbn.
  assert (∀ d : value, (size (lodash_pick d unique) ≤ 1)%nat) as Hsize.
  { intros d. unfold lodash_pick.
    destruct (own_props d !! to_key unique);
      [rewrite map_size_singleton|rewrite map_size_empty]; lia. }
  destruct fs as [|[e|] fs]; cbn;
    (split; [reflexivity|]); (split; [reflexivity|]); (split; [reflexivity|]).
  1, 3: split; [apply Hsize|];
    intros name doc -> _ Hdoc%(decode_holds JSON_parse getKey) _;
    rewrite Hdoc; reflexivity.
  split; [rewrite map_size_empty; lia|]. intros name doc _ _ _ [=].
Qed.



(** What [removeByJobId] keeps has no entry for the identifier, so that
    removing it again keeps everything. *)
Lemma lodash_omit_again (doc : gmap string value) (i : value) :
  is_job_id i →
  lodash_omit (VObj (lodash_omit (VObj doc) (λ v, strict_equals v i)))
    (λ v, strict_equals v i) =
  lodash_omit (VObj doc) (λ v, strict_equals v i).
Proof.
  intros Hi. apply map_eq. intros name.
  rewrite (lodash_omit_lookup _ i name Hi).
  destruct (lodash_omit (VObj doc) _ !! name) as [v|] eqn:Hv; [|reflexivity].
  rewrite (lodash_omit_lookup doc i name Hi) in Hv.
  destruct (doc !! name) as [v'|]; [|discriminate].
  destruct (strict_equals v' i) eqn:E; [discriminate|].
  injection Hv as <-. rewrite E. reflexivity.
Qed.


(** X14. On a store that does not fail, what [removeByJobId] writes and
    returns is an object, none of whose entries is the identifier.  When
    the text under the registry's key parses to an object, it is that object
    without the entries that are the identifier, all others kept (an entry
    named [__proto__] apart).  When
    there is no text, or a text that does not parse, or one that parses to
    [null], a number or a boolean, it is [{}]: a removal turns such a
    content back into a document. *)
Theorem removeByJobId_writes_a_document (k : engine) (c : gmap string string)
    (t : list call) (i : value) :
  ∃ kept : gmap string value,
    removeByJobId i (World k (Redis c []) t) =
      (None, VObj kept,
       World k (Redis (<[key := JSON_stringify (VObj kept)]> c) [])
         (t ++ [ClientGet key None; ClientSet key (JSON_stringify (VObj kept)) None]))
    ∧ (∀ name v, kept !! name = Some v → strict_equals v i = false)
    ∧ match c !! key with
      | None => kept = ∅
      | Some text =>
          match JSON_parse text with
          | Some (VObj doc) =>
              ∀ name,
                name ≠ "__proto__" →
                kept !! name =
                match doc !! name with
                | Some v => if strict_equals v i then None else Some v
                | None => None
                end
          | Some (VStr _) => True
          | _ => kept = ∅
          end
      end.
Proof.
  exists (lodash_omit (decode (c !! key)) (λ v, strict_equals v i)).
  split; [|split].
  - apply (removeByJobId_reliable JSON_parse JSON_stringify getKey engine).
  - intros name v Hv. unfold lodash_omit in Hv.
    apply map_lookup_filter_Some in Hv as [_ Hv]. exact Hv.
  - unfold parse_reply, lodash_omit. destruct (c !! key) as [text|]; cbn;
      [|apply map_filter_empty].
    destruct (JSON_parse text) as [[| |b|z|str|doc]|]; cbn;
      try apply map_filter_empty; [exact I|].
    intros name _. destruct (doc !! name) as [v|] eqn:Hv.
    + destruct (strict_equals v i) eqn:E.
      * apply map_lookup_filter_None. right. intros x Hx. cbn.
        rewrite Hv in Hx. injection Hx as <-. congruence.
      * apply map_lookup_filter_Some. split; [exact Hv|exact E].
    + apply map_lookup_filter_None. left. exact Hv.
Qed.

(** X15. Removing the same identifier a second time changes nothing: on a
    store that does not fail and gives back the document it was given, the
    second removal returns and writes the document the first one left. *)
Theorem removeByJobId_twice (k : engine) (c : gmap string string)
    (t : list call) (doc : gmap string value) (i : value) :
  decode (c !! key) = VObj doc →
  is_job_id i →
  let kept := lodash_omit (VObj doc) (λ v, strict_equals v i) in
  JSON_parse (JSON_stringify (VObj kept)) = Some (VObj kept) →
  let once := removeByJobId i (World k (Redis c []) t) in
  let twice := removeByJobId i once.2 in
  twice.1 = (None, VObj kept)
  ∧ client twice.2 = client once.2.
Proof.
  intros Hdoc Hi kept Hrt once twice. unfold twice, once.
  rewrite (removeByJobId_reliable JSON_parse JSON_stringify getKey engine).
  cbn [snd]. rewrite (removeByJobId_reliable JSON_parse JSON_stringify getKey engine).
  cbn [fst snd client]. rewrite lookup_insert_eq, Hdoc.
  fold kept. rewrite (decode_document JSON_parse _ kept Hrt).
  unfold kept at 1 3. rewrite (lodash_omit_again doc i Hi). fold kept.
  rewrite insert_insert_eq. split; reflexivity.
Qed.

(** ** Removal: what the order of completion changes *)

(** X16. Whatever the order of completion and whatever fails, [remove]
    leaves kue as kue's own removal leaves it and the store as
    [removeByJobId] leaves it, and the caller is called back. *)
Theorem remove_effects_are_those_of_its_tasks (s : schedule) (this : job) (w : world) :
  kue (remove s this w).2 = (previousRemove this (kue w)).2
  ∧ client (remove s this w).2 = client (removeByJobId (id this) w).2
  ∧ is_Some (remove s this w).1.
Proof.
  to_calls. destruct w as [k [c fs] t].
  destruct s;
    destruct fs as [|[e1|] fs]; try destruct fs as [|[e2|] fs]; cbn;
    destruct (previousRemove this k) as [[er|] k']; cbn;
    (split; [reflexivity|]); (split; [reflexivity|]); eexists; reflexivity.
Qed.

(** X17. When kue's removal and the read of the registry both fail, the
    error the caller gets is the one that arrives first: kue's when kue
    calls back before the read, the store's otherwise. *)
Theorem reported_error_is_the_earlier_one (this : job) (k : engine)
    (c : gmap string string) (fs : list (option error)) (t : list call)
    (e1 e2 : error) (k' : engine) :
  previousRemove this k = (Some e1, k') →
  let w := World k (Redis c (Some e2 :: fs)) t in
  (remove RemoveJobFirst this w).1 = Some (Some e1)
  ∧ (remove RemoveJobBetween this w).1 = Some (Some e2)
  ∧ (remove RemoveJobLast this w).1 = Some (Some e2).
Proof.
  intros Hrm w. unfold w. to_calls. cbn. rewrite Hrm. cbn. auto.
Qed.


(** X19. Once a job has been removed its key is free: on a store that
    does not fail and gives back the document it was given, the next
    submission under that key looks the key up, does not find it, and has
    kue create a job. *)
Theorem removed_key_is_free (s : schedule) (this next : job) (k : engine)
    (c : gmap string string) (t : list call) (doc : gmap string value)
    (unique : string) :
  unique ≠ "" →
  get_unique (data next) = Some (VStr unique) →
  decode (c !! key) = VObj doc →
  is_job_id (id this) →
  doc !! unique = Some (id this) →
  let kept := lodash_omit (VObj doc) (λ v, strict_equals v (id this)) in
  JSON_parse (JSON_stringify (VObj kept)) = Some (VObj kept) →
  let w' := (remove s this (World k (Redis c []) t)).2 in
  ∃ rest,
    trace (save next w').2 =
      trace w' ++
      [ClientGet key None; PreviousSave next (previousSave next (kue w')).1.1] ++ rest.
Proof.
  intros Hne Hu Hdoc Hid Hentry kept Hrt w'.
  destruct (remove_reliable JSON_parse JSON_stringify getKey engine previousRemove
              s this k c t) as (_ & _ & Hclient).
  cbv zeta in Hclient. rewrite Hdoc in Hclient. fold kept in Hclient.
  fold w' in Hclient. destruct w' as [k1 r1 t1]. cbn [client] in Hclient. subst r1.
  assert (decode (<[key := JSON_stringify (VObj kept)]> c !! key) = VObj kept) as Hkept.
  { rewrite lookup_insert_eq. apply (decode_document JSON_parse), Hrt. }
  assert (kept !! unique = None) as Hfree.
  { unfold kept. rewrite (lodash_omit_lookup doc (id this) unique Hid), Hentry.
    rewrite (proj2 (strict_equals_job_id _ _ Hid) eq_refl). reflexivity. }
  rewrite (save_creates JSON_parse JSON_stringify getKey engine previousSave Job_get
             k1 _ t1 kept next unique Hne Hu Hkept Hfree).
  cbn [kue trace].
  destruct (previousSave next k1) as [[[e|] created] k2]; cbn [fst snd trace].
  - exists []. reflexivity.
  - destruct (get_unique (data created)); cbn [snd trace].
    + eexists. rewrite <- app_assoc. reflexivity.
    + exists []. reflexivity.
Qed.

(** X20. The module itself reads and writes the store under the
    registry's key and under no other: whatever happens, every access to
    the store that a submission or a removal makes is an access to that
    key. *)
Theorem only_the_registry_key_is_accessed (s : schedule) (this : job) (w : world) :
  (∃ calls, trace (save this w).2 = trace w ++ calls ∧ Forall (on_key key) calls)
  ∧ (∃ calls, trace (remove s this w).2 = trace w ++ calls
              ∧ Forall (on_key key) calls).
Proof.
  split.
  - to_calls. destruct w as [k [c fs] t]. cbn.
    repeat (case_match; cbn in *; simplify_eq);
      rewrite <- ?app_assoc; cbn [app];
      eexists; (split; [reflexivity|]); repeat constructor.
  - to_calls. destruct w as [k [c fs] t].
    destruct s;
      destruct fs as [|[e1|] fs]; try destruct fs as [|[e2|] fs]; cbn;
      destruct (previousRemove this k) as [[er|] k']; cbn;
      rewrite <- ?app_assoc; cbn [app];
      eexists; (split; [reflexivity|]); repeat constructor.
Qed.

(** ** Submission: the way through *)


(** X22. On a registry whose text parses to a number or a boolean, a key
    that names no member of their prototypes is not found and is not
    registered: the submission of a unique job has kue create a job, and
    the registration writes the same value back. *)
Theorem registry_that_is_no_object_registers_nothing (k : engine)
    (c : gmap string string) (t : list call) (text : string) (loaded : value)
    (this this' : job) (unique : string) (u : value) (k' : engine) :
  unique ≠ "" →
  inherited_by_number unique = false →
  get_unique (data this) = Some (VStr unique) →
  c !! key = Some text →
  JSON_parse text = Some loaded →
  is_number_or_boolean loaded →
  previousSave this k = (None, this', k') →
  get_unique (data this') = Some u →
  let blob := JSON_stringify loaded in
  save this (World k (Redis c []) t) =
    (Done None (AJob this'), this',
     World k' (Redis (<[key := blob]> c) [])
       (t ++ [ClientGet key None; PreviousSave this None;
              ClientGet key None; ClientSet key blob None])).
Proof.
  intros Hne _ Hu Htext Hparse Hloaded Hsave Hu' blob.
  assert (decode (c !! key) = loaded) as Hdoc.
  { unfold parse_reply. rewrite Htext, Hparse.
    destruct loaded; try destruct Hloaded; reflexivity. }
  assert (own_props loaded = ∅) as Hown.
  { destruct loaded; try destruct Hloaded; reflexivity. }
  assert (∀ source, lodash_merge loaded source = loaded) as Hmerge.
  { intros source. destruct loaded, source; try destruct Hloaded; reflexivity. }
  unfold Job_save. rewrite (isUniqueJob_carries this unique Hne Hu), Hu.
  simpl default.
  rewrite (lookup_reliable JSON_parse getKey engine), Hdoc.
  unfold lodash_pick. rewrite Hown, lookup_empty. cbn [own_props].
  rewrite exists_empty.
  unfold call_previousSave, record. cbn [kue client trace]. rewrite Hsave, Hu'.
  rewrite (register_reliable JSON_parse JSON_stringify getKey engine), Hdoc, Hmerge.
  rewrite <- !app_assoc. reflexivity.
Qed.

End Behaviour.

(** * The further behaviour at work on the small queue *)

Ltac by_evaluation :=
  first [ discriminate
        | vm_compute; reflexivity
        | intros ?; discriminate
        | let H := fresh in intros H; vm_compute in H; discriminate H ].

(** An instance of X1: a fresh job is tagged. *)
Lemma unique_tags_an_object_witness :
  data (Job_unique (VStr "order-42") (Demo.new_job (VObj ∅))) =
  VObj (<["unique" := VStr "order-42"]> ∅).
Proof.
  exact (proj1 (unique_tags_an_object "order-42" (Demo.new_job (VObj ∅)) ∅ eq_refl)).
Defined.

(** An instance of X2: the empty key. *)
Lemma falsy_key_is_no_key_witness :
  (Demo.Job_save (Job_unique (VStr "") (Demo.new_job (VObj ∅))) Demo.after_jobA).1.1 =
  Done None ANone.
Proof.
  refine (f_equal (λ r : outcome * job * world Demo.engine, r.1.1)
            (falsy_key_is_no_key Demo.JSON_parse Demo.JSON_stringify Demo.getKey
               Demo.engine Demo.previousSave Demo.Job_get
               (Job_unique (VStr "") (Demo.new_job (VObj ∅))) (VStr "")
               Demo.after_jobA _ _));
    by_evaluation.
Defined.

(** An instance of X3: the store is down when [jobB] is submitted. *)
Lemma failed_lookup_creates_nothing_witness :
  Demo.Job_save Demo.jobB
    (Demo.with_faults [Some Demo.store_down] (Demo.pointing_at Demo.job1)) =
  (Done (Some Demo.store_down) (AData (VObj ∅)), Demo.jobB,
   World [Demo.job1] (Redis {[ Demo.key := Demo.order_42_is_1 ]} [])
     ([] ++ [ClientGet Demo.key (Some Demo.store_down)])).
Proof.
  refine (failed_lookup_creates_nothing Demo.JSON_parse Demo.JSON_stringify
            Demo.getKey Demo.engine Demo.previousSave Demo.Job_get
            Demo.jobB [Demo.job1] {[ Demo.key := Demo.order_42_is_1 ]} [] []
            Demo.store_down _);
    by_evaluation.
Defined.

(** An instance of X4: kue refuses [jobA]. *)
Lemma failed_creation_registers_nothing_witness :
  Demo.Job_save_refused Demo.jobA (Demo.with_faults [None] Demo.empty_world) =
  (Done (Some (Error "job could not be saved")) (AJob Demo.jobA), Demo.jobA,
   World [] (Redis ∅ [])
     ([] ++ [ClientGet Demo.key None;
             PreviousSave Demo.jobA (Some (Error "job could not be saved"))])).
Proof.
  refine (failed_creation_registers_nothing Demo.JSON_parse Demo.JSON_stringify
            Demo.getKey Demo.engine Demo.previousSave_refused Demo.Job_get
            [] ∅ [] [] ∅ Demo.jobA Demo.jobA "order-42"
            (Error "job could not be saved") [] _ _ _ _ _ _);
    by_evaluation.
Defined.

(** An instance of X5: the store goes down once [jobA] is created. *)
Lemma failed_registration_leaves_the_job_witness :
  Demo.Job_save Demo.jobA
    (Demo.with_faults [None; Some Demo.store_down] Demo.empty_world) =
  (Done (Some Demo.store_down) (AJob Demo.job1), Demo.job1,
   World [Demo.job1] (Redis ∅ [])
     ([] ++ [ClientGet Demo.key None; PreviousSave Demo.jobA None;
             ClientGet Demo.key (Some Demo.store_down)])).
Proof.
  refine (proj1 (failed_registration_leaves_the_job Demo.JSON_parse
            Demo.JSON_stringify Demo.getKey Demo.engine Demo.previousSave Demo.Job_get
            [] ∅ [] [] ∅ Demo.jobA Demo.job1 "order-42"
            Demo.store_down [Demo.job1] _ _ _ _ _ _ _ I));
    by_evaluation.
Defined.

(** An instance of X6: the registry points at a job kue does not have. *)
Lemma failed_fetch_creates_nothing_witness :
  Demo.Job_save Demo.jobB (Demo.with_faults [None] Demo.dangling) =
  (Done (Some (Error "job does not exist")) ANone, Demo.jobB,
   World [] (Redis {[ Demo.key := Demo.order_42_is_1 ]} [])
     ([] ++ [ClientGet Demo.key None;
             JobGet (VNum 1) (Some (Error "job does not exist"))])).
Proof.
  refine (failed_fetch_creates_nothing Demo.JSON_parse Demo.JSON_stringify
            Demo.getKey Demo.engine Demo.previousSave Demo.Job_get
            [] {[ Demo.key := Demo.order_42_is_1 ]} [] []
            {[ "order-42" := VNum 1 ]} Demo.jobB "order-42" (VNum 1)
            (Error "job does not exist") None [] _ _ _ _ _);
    by_evaluation.
Defined.

(** An instance of X7: kue has job 1 without its data. *)
Lemma fetched_job_without_data_raises_witness :
  Demo.Job_save Demo.jobB
    (Demo.with_faults [None] (Demo.pointing_at Demo.job_without_data)) =
  (Uncaught UniqueOfUndefined, Demo.jobB,
   World [Demo.job_without_data] (Redis {[ Demo.key := Demo.order_42_is_1 ]} [])
     ([] ++ [ClientGet Demo.key None; JobGet (VNum 1) None])).
Proof.
  refine (fetched_job_without_data_raises Demo.JSON_parse Demo.JSON_stringify
            Demo.getKey Demo.engine Demo.previousSave Demo.Job_get
            [Demo.job_without_data] {[ Demo.key := Demo.order_42_is_1 ]} [] []
            {[ "order-42" := VNum 1 ]} Demo.jobB Demo.job_without_data "order-42"
            (VNum 1) [Demo.job_without_data] _ _ _ _ _ _);
    by_evaluation.
Defined.

(** An instance of X10: kue has job 1 with data that carry no key. *)
Lemma keyless_job_is_registered_as_undefined_witness :
  (Demo.Job_save Demo.jobB (Demo.pointing_at Demo.job_without_key)).1.1 =
  Done None (AJob (flag Demo.job_without_key)).
Proof.
  refine (f_equal (λ r : outcome * job * world Demo.engine, r.1.1)
            (keyless_job_is_registered_as_undefined Demo.JSON_parse
               Demo.JSON_stringify Demo.getKey Demo.engine Demo.previousSave
               Demo.Job_get [Demo.job_without_key]
               {[ Demo.key := Demo.order_42_is_1 ]} []
               {[ "order-42" := VNum 1 ]} ∅ Demo.jobB Demo.job_without_key
               "order-42" (VNum 1) [Demo.job_without_key] _ _ _ _ _ _ _ I));
    by_evaluation.
Defined.

(** An instance of X11: the key of job 1 is looked up. *)
Lemma lookup_only_reads_witness :
  (Job_getUniqueJobData Demo.JSON_parse Demo.getKey Demo.engine (VStr "order-42")
     Demo.after_jobA).1.2 =
  VObj match ({[ "order-42" := VNum 1 ]} : gmap string value) !! "order-42" with
       | Some v => {[ "order-42" := v ]}
       | None => ∅
       end.
Proof.
  refine (proj2 (proj2 (proj2 (proj2
            (lookup_only_reads Demo.JSON_parse Demo.getKey Demo.engine
               (VStr "order-42") Demo.after_jobA))))
            "order-42" {[ "order-42" := VNum 1 ]} eq_refl _ _ _);
    by_evaluation.
Defined.



(** An instance of X15: job 1 is removed from the registry twice. *)
Lemma removeByJobId_twice_witness :
  (Job_removeUniqueJobData Demo.JSON_parse Demo.JSON_stringify Demo.getKey Demo.engine
     (VNum 1)
     (Job_removeUniqueJobData Demo.JSON_parse Demo.JSON_stringify Demo.getKey
        Demo.engine (VNum 1) Demo.after_jobA).2).1 =
  (None, VObj (lodash_omit (VObj {[ "order-42" := VNum 1 ]})
                 (λ v, strict_equals v (VNum 1)))).
Proof.
  refine (proj1 (removeByJobId_twice Demo.JSON_parse Demo.JSON_stringify Demo.getKey
            Demo.engine [Demo.job1] {[ Demo.key := Demo.order_42_is_1 ]}
            (trace Demo.after_jobA) {[ "order-42" := VNum 1 ]} (VNum 1) _ I _));
    by_evaluation.
Defined.

(** An instance of X17: kue does not have the job and the store is down. *)
Lemma reported_error_is_the_earlier_one_witness :
  (Demo.Job_remove RemoveJobFirst Demo.job1
     (Demo.with_faults [Some Demo.store_down] Demo.dangling)).1 =
    Some (Some (Error "job does not exist"))
  ∧ (Demo.Job_remove RemoveJobBetween Demo.job1
       (Demo.with_faults [Some Demo.store_down] Demo.dangling)).1 =
    Some (Some Demo.store_down)
  ∧ (Demo.Job_remove RemoveJobLast Demo.job1
       (Demo.with_faults [Some Demo.store_down] Demo.dangling)).1 =
    Some (Some Demo.store_down).
Proof.
  refine (reported_error_is_the_earlier_one Demo.JSON_parse Demo.JSON_stringify
            Demo.getKey Demo.engine Demo.previousRemove Demo.job1 []
            {[ Demo.key := Demo.order_42_is_1 ]} [] []
            (Error "job does not exist") Demo.store_down [] _);
    by_evaluation.
Defined.


(** An instance of X19: job 1 is removed, then [jobB] is submitted. *)
Lemma removed_key_is_free_witness :
  ∃ rest,
    trace (Demo.Job_save Demo.jobB
             (Demo.Job_remove RemoveJobFirst Demo.job1 Demo.after_jobA).2).2 =
    trace (Demo.Job_remove RemoveJobFirst Demo.job1 Demo.after_jobA).2 ++
    [ClientGet Demo.key None;
     PreviousSave Demo.jobB
       (Demo.previousSave Demo.jobB
          (kue (Demo.Job_remove RemoveJobFirst Demo.job1 Demo.after_jobA).2)).1.1]
    ++ rest.
Proof.
  refine (removed_key_is_free Demo.JSON_parse Demo.JSON_stringify Demo.getKey
            Demo.engine Demo.previousSave Demo.Job_get Demo.previousRemove
            RemoveJobFirst Demo.job1 Demo.jobB [Demo.job1]
            {[ Demo.key := Demo.order_42_is_1 ]} (trace Demo.after_jobA)
            {[ "order-42" := VNum 1 ]} "order-42" _ _ _ I _ _);
    by_evaluation.
Defined.


(** An instance of X22: [jobA] is submitted while the registry's key holds
    [42]. *)
Lemma registry_that_is_no_object_registers_nothing_witness :
  Demo.Job_save Demo.jobA Demo.overwritten =
  (Done None (AJob Demo.job1), Demo.job1,
   World [Demo.job1]
     (Redis (<[Demo.key := Demo.JSON_stringify (VNum 42)]> {[ Demo.key := "42" ]}) [])
     ([] ++ [ClientGet Demo.key None; PreviousSave Demo.jobA None;
             ClientGet Demo.key None;
             ClientSet Demo.key (Demo.JSON_stringify (VNum 42)) None])).
Proof.
  refine (registry_that_is_no_object_registers_nothing Demo.JSON_parse
            Demo.JSON_stringify Demo.getKey Demo.engine Demo.previousSave Demo.Job_get
            [] {[ Demo.key := "42" ]} [] "42" (VNum 42) Demo.jobA Demo.job1
            "order-42" (VStr "order-42") [Demo.job1] _ _ _ _ _ I _ _);
    by_evaluation.
Defined.
